(** * pydamage: the analysis driver [pydamage_analyze] (src/pydamage/main.py)

    A shallow embedding of the orchestration code of pydamage.  The driver
    is a straight-line Python function that calls collaborators living in
    other modules of the package ([utils], [damage], [accuracy_model],
    [models], [plot]) and two library facilities ([multiprocessing.Pool]
    and [pandas.DataFrame.merge]).

    - The collaborators whose code is not part of main.py are taken as a
      record of functions ([Collaborators]); every theorem quantifies over
      that record.  A collaborator is a function of its arguments that
      either returns a value or raises; it has no handle on the objects of
      the driver other than through its return value.
    - Every call that leaves main.py is logged in a trace of [event]s, so
      that "how often" and "in which order" are statements about lists.
    - The worker pool is modelled with an explicit completion order: the
      workers may finish the submitted tasks in any order, and the
      iterator returned by [Pool.imap] hands the results back by index.
      When the iterator re-raises the failure of a task, the [with] block
      is left and the pool is terminated: the tasks still pending then
      need not run, and the schedule says how many of them still do.
    - A run returns a value, raises, or blocks ([outcome]); that the driver
      never blocks is part of what is proved. *)

From Stdlib Require Import Ascii QArith.
From stdpp Require Import base option list strings gmap pretty.

Local Open Scope Z_scope.

(** ** Python values that travel through the driver *)

(** A cell of a result dictionary or of a data frame. *)
Inductive cell :=
| CNum (q : Q)
| CStr (s : string)
| CNaN.

(** What [damage.test_damage] hands back: a dictionary of fit results, or
    a falsy value when the reference yields nothing to fit. *)
Inductive pyval :=
| PyNone
| PyBool (b : bool)
| PyDict (d : list (string * cell)).

(** Python truthiness, as used by [if i] in the list comprehension. *)
Definition truthy (v : pyval) : bool :=
  match v with
  | PyNone => false
  | PyBool b => b
  | PyDict [] => false
  | PyDict (_ :: _) => true
  end.

(** A pandas frame: column labels and, per row, the index label and one
    cell per column. *)
Record DataFrame := mkDF {
  columns : list string;
  rows : list (string * list cell)
}.

Definition index (df : DataFrame) : list string := fst <$> rows df.

(** The coefficients of the pretrained GLM. *)
Definition GLM := list (string * Q).

(** ** Exceptions, outcomes and the trace monad *)

Inductive exn :=
| ValueError (msg : string)
| Raised (what : string).

Inductive outcome (A : Type) :=
| Return (a : A)
| Raise (e : exn)
| Hang.
Arguments Return {A} a.
Arguments Raise {A} e.
Arguments Hang {A}.

Inductive event :=
| EPrint (s : string)
| EMakedir (path : string) (confirm force : option bool)
| EPrepareBam (bam : string)
| EPoolEnter (processes : Z)
| EPoolExit
| ETqdm (total : nat)
| ETestDamage (ref : option string) (bam mode : string) (wlen : Z)
    (show_al : bool) (process : Z) (verbose : bool)
| EWarn (message category : string)
| EDamageplot (res : pyval) (outdir : string) (wlen : Z)
| EPandasProcessing (res_dict : list pyval) (wlen : Z)
| EPrepareData (df : DataFrame)
| EGlmPredict (df : DataFrame) (params : GLM)
| EMerge (left right : DataFrame)
| EDfToCsv (df : DataFrame) (outdir : string) (decimals : Z).

Definition M (A : Type) : Type := (list event * outcome A)%type.

Definition ret {A} (a : A) : M A := ([], Return a).

Definition bind {A B} (m : M A) (k : A -> M B) : M B :=
  match m with
  | (t, Return a) => let '(t', r) := k a in (t ++ t', r)
  | (t, Raise e) => (t, Raise e)
  | (t, Hang) => (t, Hang)
  end.

Notation "x <- m ; k" := (bind m (fun x => k))
  (at level 20, m at level 100, k at level 200, only parsing).
Notation "m >> k" := (bind m (fun _ => k))
  (at level 100, k at level 200, right associativity, only parsing).

(** One logged call of a collaborator. *)
Definition call {A} (ev : event) (r : exn + A) : M A :=
  ([ev], match r with inl e => Raise e | inr a => Return a end).

Definition emit (ev : event) : M unit := ([ev], Return tt).

Definition raise {A} (e : exn) : M A := ([], Raise e).

Definition when (b : bool) (m : M unit) : M unit :=
  if b then m else ret tt.

(** ** The collaborators of main.py *)

Record Collaborators := {
  (** [pydamage.__version__] *)
  version : string;
  (** [utils.makedir(path, confirm=..., force=...)]; a keyword that the
      call site leaves out is [None]. *)
  makedir : string -> option bool -> option bool -> exn + unit;
  (** [utils.prepare_bam(bam)]: the references and the read mode *)
  prepare_bam : string -> exn + (list string * string);
  (** [damage.test_damage(ref, bam, mode, wlen, show_al, process, verbose)] *)
  test_damage :
    option string -> string -> string -> Z -> bool -> Z -> bool -> exn + pyval;
  (** [plot.damageplot(res, outdir, wlen)] *)
  damageplot : pyval -> string -> Z -> exn + unit;
  (** [utils.pandas_processing(res_dict, wlen)] *)
  pandas_processing : list pyval -> Z -> exn + DataFrame;
  (** [accuracy_model.prepare_data(df)] *)
  prepare_data : DataFrame -> exn + DataFrame;
  (** [accuracy_model.glm_predict(df, params)] *)
  glm_predict : DataFrame -> GLM -> exn + DataFrame;
  (** [models.glm_model_params] *)
  glm_model_params : GLM;
  (** [utils.df_to_csv(df, outdir, decimals)] *)
  df_to_csv : DataFrame -> string -> Z -> exn + unit
}.

(** ** [multiprocessing.Pool] *)

(** The order in which the workers finish the submitted tasks when
    nothing stops them.  At every step one of the pending tasks finishes;
    [choices] says which one. *)
Fixpoint completion_order {A} (fuel : nat) (choices : list nat)
    (pending : list (nat * A)) : list (nat * A) :=
  match fuel with
  | O => []
  | S fuel' =>
      let c := (hd 0%nat choices `mod` length pending)%nat in
      match pending !! c with
      | Some t => t :: completion_order fuel' (tl choices) (delete c pending)
      | None => []
      end
  end.

(** The iterator of [Pool.imap]: results are parked under their index and
    handed out in index order; a failed task re-raises when its turn
    comes.  Waiting for an index that never arrives blocks. *)
Fixpoint drain {B} (slots : gmap nat (outcome B)) (i n : nat)
    : outcome (list B) :=
  match n with
  | O => Return []
  | S n' =>
      match slots !! i with
      | Some (Return v) =>
          match drain slots (S i) n' with
          | Return vs => Return (v :: vs)
          | Raise e => Raise e
          | Hang => Hang
          end
      | Some (Raise e) => Raise e
      | Some Hang | None => Hang
      end
  end.

Definition tasks {A} (xs : list A) : list (nat * A) :=
  zip (seq 0 (length xs)) xs.

Definition park {B} (slots : gmap nat (outcome B)) (r : nat * M B)
    : gmap nat (outcome B) :=
  <[r.1 := r.2.2]> slots.

(** Whether the iterator has re-raised the failure of a task. *)
Definition raised {B} (o : outcome B) : bool :=
  match o with Raise _ => true | _ => false end.

(** The tasks the workers get through before the pool is gone, out of the
    tasks in the order in which they would finish.  As long as the
    iterator has not raised, the body of the [with] block waits for
    results and the workers go on.  Once it has raised, the block is left
    and [Pool.__exit__] calls [terminate()]: [late] more tasks get through
    before the workers stop, the others are never run. *)
Fixpoint finished {B} (n late : nat) (slots : gmap nat (outcome B))
    (order : list (nat * M B)) : list (nat * M B) :=
  if raised (drain slots 0 n) then take late order
  else
    match order with
    | [] => []
    | r :: order' => r :: finished n late (park slots r) order'
    end.

(** [list(tqdm(p.imap(f, xs), total=len(xs)))] inside the [with] block of
    a pool *)
Definition pool_imap {A B} (choices : list nat) (late : nat) (f : A -> M B)
    (xs : list A) : M (list B) :=
  let ran :=
    finished (length xs) late ∅
      ((fun t : nat * A => (t.1, f t.2))
         <$> completion_order (length xs) choices (tasks xs)) in
  (ETqdm (length xs) :: concat ((fun r : nat * M B => r.2.1) <$> ran),
   drain (foldl park ∅ ran) 0 (length xs)).

(** [with multiprocessing.Pool(n) as p: body]; the constructor refuses
    fewer than one process, and the pool is closed however the body ends. *)
Definition with_pool {A} (n : Z) (body : M A) : M A :=
  if n <? 1 then raise (ValueError "Number of processes must be at least 1")
  else let '(t, r) := body in (EPoolEnter n :: t ++ [EPoolExit], r).

(** What the workers of the two pools of a run do: the order in which
    they finish, and how many tasks still get through once the pool is
    being terminated. *)
Record Schedule := {
  fit_order : list nat;
  fit_late : nat;
  plot_order : list nat;
  plot_late : nat
}.

(** ** [DataFrame.merge(right, left_index=True, right_index=True)] *)

Definition suffixed (other : list string) (sfx c : string) : string :=
  if bool_decide (c ∈ other) then c +:+ sfx else c.

(** The default inner join on the index labels: a row for every pair of a
    left and a right row with the same label, in the order of the left
    frame; a column label that occurs on both sides gets [_x] or [_y]. *)
Definition merge (left right : DataFrame) : DataFrame :=
  {| columns :=
       (suffixed (columns right) "_x" <$> columns left)
       ++ (suffixed (columns left) "_y" <$> columns right);
     rows :=
       flat_map
         (fun l : string * list cell =>
            (fun r : string * list cell => (l.1, l.2 ++ r.2))
              <$> filter (fun r : string * list cell => r.1 = l.1)
                    (rows right))
         (rows left) |}.

(** ** Arguments of the driver *)

Record Args := {
  bam : string;
  wlen : Z;
  show_al : bool;
  process : Z;
  outdir : string;
  plot : bool;
  verbose : bool;
  force : bool;
  group : bool;
  decimals : Z
}.

(** The keyword defaults of the signature. *)
Definition defaults (bam : string) : Args :=
  {| bam := bam; wlen := 30; show_al := false; process := 1;
     outdir := EmptyString; plot := false; verbose := false;
     force := false; group := false; decimals := -1 |}.

(** The same call with another [decimals]. *)
Definition with_decimals (a : Args) (d : Z) : Args :=
  {| bam := bam a; wlen := wlen a; show_al := show_al a; process := process a;
     outdir := outdir a; plot := plot a; verbose := verbose a;
     force := force a; group := group a; decimals := d |}.

Definition nl : string := String "010"%char EmptyString.

(** ** The driver *)

Section Driver.
Variable c : Collaborators.
Variable s : Schedule.
Variable a : Args.

(** [damage.test_damage] with every keyword of the call sites bound. *)
Definition fit (mode : string) (ref : option string) : M pyval :=
  call (ETestDamage ref (bam a) mode (wlen a) (show_al a) (process a)
          (verbose a))
       (test_damage c ref (bam a) mode (wlen a) (show_al a) (process a)
          (verbose a)).

Definition pydamage_analyze : M DataFrame :=
  when (verbose a) (emit (EPrint ("Pydamage version " +:+ version c +:+ nl))) >>
  call (EMakedir (outdir a) None (Some (force a)))
       (makedir c (outdir a) None (Some (force a))) >>
  rm <- call (EPrepareBam (bam a)) (prepare_bam c (bam a)) ;
  let refs := rm.1 in
  let mode := rm.2 in
  let proc := Z.min (Z.of_nat (length refs)) (process a) in
  let test_damage_partial := fun ref => fit mode (Some ref) in
  emit (EPrint "Estimating and testing Damage") >>
  filt_res <-
    (if group a then
       r <- fit mode None ;
       ret [r]
     else
       res <- with_pool proc
                (pool_imap (fit_order s) (fit_late s) test_damage_partial
                   refs) ;
       ret (List.filter truthy res)) ;
  emit (EPrint (pretty (length filt_res)
                +:+ " contig(s) successfully analyzed by Pydamage")) >>
  when (length filt_res =? 0)%nat
    (emit (EWarn "No alignments were found, check your alignment file"
             "PyDamageWarning")) >>
  when (plot a && (0 <? length filt_res)%nat)
    (emit (EPrint (nl +:+ "Generating Pydamage plots")) >>
     let plotdir := outdir a +:+ "/plots" in
     call (EMakedir plotdir (Some false) None)
          (makedir c plotdir (Some false) None) >>
     let plot_partial := fun res =>
       call (EDamageplot res plotdir (wlen a))
            (damageplot c res plotdir (wlen a)) in
     with_pool proc
       (pool_imap (plot_order s) (plot_late s) plot_partial filt_res) >>
     ret tt) >>
  df_pydamage <- call (EPandasProcessing filt_res (wlen a))
                      (pandas_processing c filt_res (wlen a)) ;
  prep_df_glm <- call (EPrepareData df_pydamage)
                      (prepare_data c df_pydamage) ;
  df_glm <- call (EGlmPredict prep_df_glm (glm_model_params c))
                 (glm_predict c prep_df_glm (glm_model_params c)) ;
  df <- ([EMerge df_glm df_pydamage], Return (merge df_glm df_pydamage)) ;
  call (EDfToCsv df (outdir a) (decimals a))
       (df_to_csv c df (outdir a) (decimals a)) >>
  ret df.
End Driver.

(** ** The blocks of the driver

    The same statements as in [pydamage_analyze], cut at the points where
    a value is handed from one block to the next; [pydamage_analyze_blocks]
    below shows that the driver is their composition. *)

Section Blocks.
Variable c : Collaborators.
Variable s : Schedule.
Variable a : Args.

(** Version banner, output directory, references of the file. *)
Definition setup : M (list string * string) :=
  when (verbose a) (emit (EPrint ("Pydamage version " +:+ version c +:+ nl))) >>
  call (EMakedir (outdir a) None (Some (force a)))
       (makedir c (outdir a) None (Some (force a))) >>
  call (EPrepareBam (bam a)) (prepare_bam c (bam a)).

Definition pool_size (refs : list string) : Z :=
  Z.min (Z.of_nat (length refs)) (process a).

(** The Fitter invocations and the collected list [filt_res]. *)
Definition estimate (rm : list string * string) : M (list pyval) :=
  emit (EPrint "Estimating and testing Damage") >>
  (if group a then
     r <- fit c a rm.2 None ;
     ret [r]
   else
     res <- with_pool (pool_size rm.1)
              (pool_imap (fit_order s) (fit_late s)
                 (fun ref => fit c a rm.2 (Some ref)) rm.1) ;
     ret (List.filter truthy res)).

(** The count line, the warning and the plots. *)
Definition report (rm : list string * string) (filt_res : list pyval)
    : M unit :=
  emit (EPrint (pretty (length filt_res)
                +:+ " contig(s) successfully analyzed by Pydamage")) >>
  when (length filt_res =? 0)%nat
    (emit (EWarn "No alignments were found, check your alignment file"
             "PyDamageWarning")) >>
  when (plot a && (0 <? length filt_res)%nat)
    (emit (EPrint (nl +:+ "Generating Pydamage plots")) >>
     call (EMakedir (outdir a +:+ "/plots") (Some false) None)
          (makedir c (outdir a +:+ "/plots") (Some false) None) >>
     with_pool (pool_size rm.1)
       (pool_imap (plot_order s) (plot_late s)
          (fun res =>
             call (EDamageplot res (outdir a +:+ "/plots") (wlen a))
                  (damageplot c res (outdir a +:+ "/plots") (wlen a)))
          filt_res) >>
     ret tt).

(** Fitter frame, Accuracy Predictor frame and their join. *)
Definition tabulate (filt_res : list pyval) : M DataFrame :=
  df_pydamage <- call (EPandasProcessing filt_res (wlen a))
                      (pandas_processing c filt_res (wlen a)) ;
  prep_df_glm <- call (EPrepareData df_pydamage)
                      (prepare_data c df_pydamage) ;
  df_glm <- call (EGlmPredict prep_df_glm (glm_model_params c))
                 (glm_predict c prep_df_glm (glm_model_params c)) ;
  ([EMerge df_glm df_pydamage], Return (merge df_glm df_pydamage)).

(** The hand-off to the writer and the return. *)
Definition export (df : DataFrame) : M DataFrame :=
  call (EDfToCsv df (outdir a) (decimals a))
       (df_to_csv c df (outdir a) (decimals a)) >>
  ret df.

(** The event of one Fitter invocation. *)
Definition fit_call (mode : string) (ref : option string) : event :=
  ETestDamage ref (bam a) mode (wlen a) (show_al a) (process a) (verbose a).

Definition banner : list event :=
  if verbose a then [EPrint ("Pydamage version " +:+ version c +:+ nl)]
  else [].

(** The outcomes of the per-reference Fitter invocations, by reference. *)
Definition fit_outcomes (rm : list string * string) : list (outcome pyval) :=
  (fun ref => (fit c a rm.2 (Some ref)).2) <$> rm.1.

Definition plotdir : string := outdir a +:+ "/plots".

Definition count_line (filt_res : list pyval) : event :=
  EPrint (pretty (length filt_res)
          +:+ " contig(s) successfully analyzed by Pydamage").

Definition empty_warning : event :=
  EWarn "No alignments were found, check your alignment file"
    "PyDamageWarning".

Definition plot_outcomes (filt_res : list pyval) : list (outcome unit) :=
  (fun res => (call (EDamageplot res plotdir (wlen a))
                 (damageplot c res plotdir (wlen a))).2) <$> filt_res.
End Blocks.

(** Everything the driver does before it calls the writer. *)
Definition table_of (c : Collaborators) (s : Schedule) (a : Args)
    : M DataFrame :=
  rm <- setup c a ;
  filt_res <- estimate c s a rm ;
  report c s a rm filt_res >>
  tabulate c a filt_res.

(** What a block that did not return leaves to the run: its exception, or
    nothing at all when it blocked. *)
Definition abort {A B} (o : outcome A) : outcome B :=
  match o with
  | Return _ | Hang => Hang
  | Raise e => Raise e
  end.

(** ** Reading a trace *)

Definition is_fit (e : event) : bool :=
  match e with ETestDamage _ _ _ _ _ _ _ => true | _ => false end.

Definition is_pool (e : event) : bool :=
  match e with EPoolEnter _ | EPoolExit => true | _ => false end.

Definition is_warn (e : event) : bool :=
  match e with EWarn _ _ => true | _ => false end.

Definition is_prepare_data (e : event) : bool :=
  match e with EPrepareData _ => true | _ => false end.

Definition is_glm_predict (e : event) : bool :=
  match e with EGlmPredict _ _ => true | _ => false end.

Definition is_csv (e : event) : bool :=
  match e with EDfToCsv _ _ _ => true | _ => false end.

(** A call of the Accuracy Predictor. *)
Definition is_predictor (e : event) : bool :=
  is_prepare_data e || is_glm_predict e.

(** The effect of one event on the number of open worker pools. *)
Definition pools_step (n : nat) (e : event) : nat :=
  match e with
  | EPoolEnter _ => S n
  | EPoolExit => Nat.pred n
  | _ => n
  end.

(** The number of worker pools that are open at the end of a trace. *)
Definition open_pools (t : list event) : nat := foldl pools_step 0%nat t.

(** The number of events of a kind. *)
Definition count_if (p : event -> bool) (t : list event) : nat :=
  length (List.filter p t).

(** The results of a list of tasks in submission order: the values, or
    the first failure. *)
Fixpoint gather {B} (os : list (outcome B)) : outcome (list B) :=
  match os with
  | [] => Return []
  | Return v :: os' =>
      match gather os' with
      | Return vs => Return (v :: vs)
      | Raise e => Raise e
      | Hang => Hang
      end
  | Raise e :: _ => Raise e
  | Hang :: _ => Hang
  end.

(** How many of the results the iterator hands out or looks at: all of
    them, or those up to the first one that is not a value. *)
Fixpoint consumed {B} (os : list (outcome B)) : nat :=
  match os with
  | [] => 0
  | Return _ :: os' => S (consumed os')
  | _ :: _ => 1
  end.

(** ** Two runs side by side *)

(** The call an event records gets the same answer from both collaborator
    sets; an event that is no call of a collaborator asks nothing. *)
Definition same_answer (c1 c2 : Collaborators) (e : event) : Prop :=
  match e with
  | EMakedir p cf f => makedir c1 p cf f = makedir c2 p cf f
  | EPrepareBam b => prepare_bam c1 b = prepare_bam c2 b
  | ETestDamage r b m w sh p v =>
      test_damage c1 r b m w sh p v = test_damage c2 r b m w sh p v
  | EDamageplot r o w => damageplot c1 r o w = damageplot c2 r o w
  | EPandasProcessing rd w =>
      pandas_processing c1 rd w = pandas_processing c2 rd w
  | EPrepareData d => prepare_data c1 d = prepare_data c2 d
  | EGlmPredict d g => glm_predict c1 d g = glm_predict c2 d g
  | EDfToCsv d o k => df_to_csv c1 d o k = df_to_csv c2 d o k
  | EPrint _ | EPoolEnter _ | EPoolExit | ETqdm _ | EWarn _ _ | EMerge _ _ =>
      True
  end.

(** Two computations side by side: when every call the first one made
    gets the same answer in the second, the second ends as the first, and
    if they return they have logged the same events up to their order. *)
Definition agree {A} (c1 c2 : Collaborators) (m1 m2 : M A) : Prop :=
  Forall (same_answer c1 c2) m1.1 ->
  m2.2 = m1.2 /\ (forall v, m1.2 = Return v -> m1.1 ≡ₚ m2.1).

(** ** Decimal precision of a table *)

(** [x] has no digit beyond the [d]-th decimal place ([d] may be
    negative: tens, hundreds, ...). *)
Definition rounded_to (d : Z) (x : cell) : bool :=
  match x with
  | CNum q =>
      let y := (q * inject_Z 10 ^ d)%Q in
      (Qnum y `mod` Z.pos (Qden y) =? 0)%Z
  | CStr _ | CNaN => true
  end.

Definition frame_rounded (d : Z) (df : DataFrame) : bool :=
  forallb (fun r : string * list cell => forallb (rounded_to d) r.2) (rows df).

(** ** The reads a Fitter invocation consumes *)

Record AlignedRead := {
  read_ref : string;
  read_name : string
}.

(** Modelled from the spec: the read selection of [damage.test_damage],
    whose code is not part of main.py.  Section 6 has the Alignment Record
    Source produce the reads of the reference it is given, and the glossary
    has grouped mode merge all references into one unit: with a reference
    the Fitter consumes the reads aligned to it, with [ref=None] every
    aligned read of the file. *)
Definition reads_used (file : list AlignedRead) (ref : option string)
    : list AlignedRead :=
  match ref with
  | None => file
  | Some r => filter (fun rd => read_ref rd = r) file
  end.

(** ** The rows of the Fitter frame *)

(** The reference identifier a result dictionary carries. *)
Definition reference_of (v : pyval) : option string :=
  match v with
  | PyDict d =>
      match List.find (fun kv : string * cell =>
                         bool_decide (kv.1 = "reference")) d with
      | Some (_, CStr r) => Some r
      | _ => None
      end
  | _ => None
  end.

(** Modelled from the spec: the row labels of [utils.pandas_processing],
    the Result Row Builder, whose code is not part of main.py.  Section 4.2
    has it map every FitResult to one record of the output schema, and the
    glossary has the ResultTable keyed by reference identifier: the labels
    of the frame built from a list of results are the reference
    identifiers these results carry. *)
Definition keyed_by_reference (rd : list pyval) (R : DataFrame) : Prop :=
  forall k, k ∈ index R <-> exists v, v ∈ rd /\ reference_of v = Some k.

(** Modelled from the spec: what [damage.test_damage], whose code is not
    part of main.py, puts into a result.  The glossary lists the reference
    identifier among the attributes of a FitResult: a result that is not
    the "no usable data" signal carries the identifier of the reference
    it was fitted on. *)
Definition names_its_reference (r : string) (v : pyval) : Prop :=
  truthy v = true -> reference_of v = Some r.

(** ** A small collaborator set to run the driver on

    Three references, the second without anything to fit.  The frames are
    built the plain way: one row per result dictionary, labelled by its
    [reference] entry. *)

Module Sample.
Definition fitA : pyval :=
  PyDict [("reference", CStr "contigA"); ("pvalue", CNum (12345 # 1000000));
          ("coverage", CNum (25 # 2))].

Definition fitC : pyval :=
  PyDict [("reference", CStr "contigC"); ("pvalue", CNum (1 # 2));
          ("coverage", CNaN)].

Definition fitAll : pyval :=
  PyDict [("reference", CStr "reference"); ("pvalue", CNum (1 # 8));
          ("coverage", CNum (30 # 1))].

Definition refs : list string := ["contigA"; "contigB"; "contigC"].

Definition sample_test_damage (ref : option string) (bam mode : string)
    (wlen : Z) (show_al : bool) (process : Z) (verbose : bool)
    : exn + pyval :=
  match ref with
  | None => inr fitAll
  | Some r =>
      if decide (r = "contigA") then inr fitA
      else if decide (r = "contigC") then inr fitC
      else inr PyNone
  end.

Definition row_of (v : pyval) : option (string * list cell) :=
  match v with
  | PyDict ((k, CStr r) :: rest) =>
      if decide (k = "reference") then Some (r, rest.*2) else None
  | _ => None
  end.

Definition cols_of (v : pyval) : list string :=
  match v with
  | PyDict (_ :: rest) => rest.*1
  | _ => []
  end.

Definition sample_pandas_processing (res : list pyval) (wlen : Z)
    : exn + DataFrame :=
  match mapM row_of res with
  | Some rs =>
      inr {| columns := from_option cols_of [] (head res); rows := rs |}
  | None => inl (Raised "TypeError")
  end.

Definition has_nan (r : string * list cell) : bool :=
  existsb (fun x => match x with CNaN => true | _ => false end) r.2.

Definition linear (params : GLM) (xs : list cell) : cell :=
  foldl (fun acc wx =>
           match acc, wx with
           | CNum s, (w, CNum x) => CNum (Qred (s + w.2 * x))
           | _, _ => CNaN
           end) (CNum 0) (zip params xs).

(** A row whose features are incomplete gets the missing marker. *)
Definition sample_glm_predict (df : DataFrame) (params : GLM)
    : exn + DataFrame :=
  inr {| columns := ["pred_accuracy"];
         rows := (fun r : string * list cell => (r.1, [linear params r.2]))
                   <$> rows df |}.

(** A predictor that leaves such a row out instead. *)
Definition dropping_glm_predict (df : DataFrame) (params : GLM)
    : exn + DataFrame :=
  inr {| columns := ["pred_accuracy"];
         rows := (fun r : string * list cell => (r.1, [linear params r.2]))
                   <$> List.filter (fun r => negb (has_nan r)) (rows df) |}.

Definition env : Collaborators :=
  {| version := "0.50";
     makedir := fun _ _ _ => inr tt;
     prepare_bam := fun _ => inr (refs, "rb");
     test_damage := sample_test_damage;
     damageplot := fun _ _ _ => inr tt;
     pandas_processing := sample_pandas_processing;
     prepare_data := fun df => inr df;
     glm_predict := sample_glm_predict;
     glm_model_params := [("pvalue", -2 # 1); ("coverage", 1 # 20)];
     df_to_csv := fun _ _ _ => inr tt |}.

Definition env_dropping : Collaborators :=
  {| version := version env;
     makedir := makedir env;
     prepare_bam := prepare_bam env;
     test_damage := test_damage env;
     damageplot := damageplot env;
     pandas_processing := pandas_processing env;
     prepare_data := prepare_data env;
     glm_predict := dropping_glm_predict;
     glm_model_params := glm_model_params env;
     df_to_csv := df_to_csv env |}.

(** An alignment file without references. *)
Definition env_no_refs : Collaborators :=
  {| version := version env;
     makedir := makedir env;
     prepare_bam := fun _ => inr ([], "rb");
     test_damage := test_damage env;
     damageplot := damageplot env;
     pandas_processing := pandas_processing env;
     prepare_data := prepare_data env;
     glm_predict := glm_predict env;
     glm_model_params := glm_model_params env;
     df_to_csv := df_to_csv env |}.

(** The frames of a per-reference run on [env], written out. *)
Definition fitter_frame : DataFrame :=
  {| columns := ["pvalue"; "coverage"];
     rows := [("contigA", [CNum (12345 # 1000000); CNum (25 # 2)]);
              ("contigC", [CNum (1 # 2); CNaN])] |}.

Definition predictor_frame : DataFrame :=
  {| columns := ["pred_accuracy"];
     rows := [("contigA", [CNum (60031 # 100000)]); ("contigC", [CNaN])] |}.

Definition joined : DataFrame :=
  {| columns := ["pred_accuracy"; "pvalue"; "coverage"];
     rows := [("contigA", [CNum (60031 # 100000); CNum (12345 # 1000000);
                           CNum (25 # 2)]);
              ("contigC", [CNaN; CNum (1 # 2); CNaN])] |}.

(** The same on [env_dropping]. *)
Definition predictor_frame_dropping : DataFrame :=
  {| columns := ["pred_accuracy"];
     rows := [("contigA", [CNum (60031 # 100000)])] |}.

Definition joined_dropping : DataFrame :=
  {| columns := ["pred_accuracy"; "pvalue"; "coverage"];
     rows := [("contigA", [CNum (60031 # 100000); CNum (12345 # 1000000);
                           CNum (25 # 2)])] |}.

(** The collaborators as a second run may meet them: the same answers on
    what the sample file holds and asks for, other answers elsewhere. *)
Definition env_again : Collaborators :=
  {| version := version env;
     makedir := fun p _ _ =>
       if decide (p = "elsewhere") then inl (Raised "PermissionError")
       else inr tt;
     prepare_bam := prepare_bam env;
     test_damage := fun ref bam mode wlen show_al process verbose =>
       if decide (ref = Some "contigZ") then inl (Raised "KeyError")
       else sample_test_damage ref bam mode wlen show_al process verbose;
     damageplot := damageplot env;
     pandas_processing := pandas_processing env;
     prepare_data := prepare_data env;
     glm_predict := glm_predict env;
     glm_model_params := glm_model_params env;
     df_to_csv := fun _ o _ =>
       if decide (o = "elsewhere") then inl (Raised "PermissionError")
       else inr tt |}.

Definition fifo : Schedule :=
  {| fit_order := []; fit_late := 0; plot_order := []; plot_late := 0 |}.

Definition shuffled : Schedule :=
  {| fit_order := [2%nat; 0%nat; 0%nat]; fit_late := 1;
     plot_order := [1%nat]; plot_late := 1 |}.

Definition args : Args := defaults "sample.bam".

Definition args_decimals (d : Z) : Args :=
  {| bam := "sample.bam"; wlen := 30; show_al := false; process := 1;
     outdir := "out"; plot := false; verbose := false; force := false;
     group := false; decimals := d |}.

Definition args_grouped : Args :=
  {| bam := "sample.bam"; wlen := 30; show_al := false; process := 4;
     outdir := "out"; plot := true; verbose := true; force := false;
     group := true; decimals := -1 |}.

Definition args_plots : Args :=
  {| bam := "sample.bam"; wlen := 30; show_al := false; process := 2;
     outdir := "out"; plot := true; verbose := false; force := false;
     group := false; decimals := 3 |}.
End Sample.

(** ** More readers of a trace *)

Definition is_damageplot (e : event) : bool :=
  match e with EDamageplot _ _ _ => true | _ => false end.

Definition is_prepare_bam (e : event) : bool :=
  match e with EPrepareBam _ => true | _ => false end.

(** A call of the table pipeline: frames, join and writer. *)
Definition is_table (e : event) : bool :=
  match e with
  | EPandasProcessing _ _ | EPrepareData _ | EGlmPredict _ _ | EMerge _ _
  | EDfToCsv _ _ _ => true
  | _ => false
  end.

(** Anything the driver does after the fits, the count line apart. *)
Definition is_downstream (e : event) : bool :=
  is_warn e || is_damageplot e || is_table e.

(** The result a plot call was made on. *)
Definition plotted (e : event) : option pyval :=
  match e with EDamageplot res _ _ => Some res | _ => None end.

(** ** More collaborator sets *)

Module Cases.
(** The Fitter raises on the second reference. *)
Definition failing_test_damage (ref : option string) (bam mode : string)
    (wlen : Z) (show_al : bool) (process : Z) (verbose : bool)
    : exn + pyval :=
  match ref with
  | Some r =>
      if decide (r = "contigB") then inl (Raised "KeyError")
      else Sample.sample_test_damage ref bam mode wlen show_al process verbose
  | None => Sample.sample_test_damage ref bam mode wlen show_al process verbose
  end.

Definition env_fit_fails : Collaborators :=
  {| version := version Sample.env;
     makedir := makedir Sample.env;
     prepare_bam := prepare_bam Sample.env;
     test_damage := failing_test_damage;
     damageplot := damageplot Sample.env;
     pandas_processing := pandas_processing Sample.env;
     prepare_data := prepare_data Sample.env;
     glm_predict := glm_predict Sample.env;
     glm_model_params := glm_model_params Sample.env;
     df_to_csv := df_to_csv Sample.env |}.

(** The output directory cannot be made. *)
Definition env_no_outdir : Collaborators :=
  {| version := version Sample.env;
     makedir := fun _ _ _ => inl (Raised "FileExistsError");
     prepare_bam := prepare_bam Sample.env;
     test_damage := test_damage Sample.env;
     damageplot := damageplot Sample.env;
     pandas_processing := pandas_processing Sample.env;
     prepare_data := prepare_data Sample.env;
     glm_predict := glm_predict Sample.env;
     glm_model_params := glm_model_params Sample.env;
     df_to_csv := df_to_csv Sample.env |}.

(** The plot of contigC fails. *)
Definition env_plot_fails : Collaborators :=
  {| version := version Sample.env;
     makedir := makedir Sample.env;
     prepare_bam := prepare_bam Sample.env;
     test_damage := test_damage Sample.env;
     damageplot := fun res _ _ =>
       match res with
       | PyDict ((_, CStr r) :: _) =>
           if decide (r = "contigC") then inl (Raised "RuntimeError")
           else inr tt
       | _ => inr tt
       end;
     pandas_processing := pandas_processing Sample.env;
     prepare_data := prepare_data Sample.env;
     glm_predict := glm_predict Sample.env;
     glm_model_params := glm_model_params Sample.env;
     df_to_csv := df_to_csv Sample.env |}.

(** A caller who asks for no process at all. *)
Definition args_no_process : Args :=
  {| bam := "sample.bam"; wlen := 30; show_al := false; process := 0;
     outdir := "out"; plot := false; verbose := false; force := false;
     group := false; decimals := -1 |}.

(** The frames of the grouped run on [Sample.env], written out. *)
Definition grouped_fitter_frame : DataFrame :=
  {| columns := ["pvalue"; "coverage"];
     rows := [("reference", [CNum (1 # 8); CNum (30 # 1)])] |}.

Definition grouped_predictor_frame : DataFrame :=
  {| columns := ["pred_accuracy"];
     rows := [("reference", [CNum (5 # 4)])] |}.
End Cases.

(** * Properties *)

(** ** The trace monad *)

Lemma bind_assoc {A B C} (m : M A) (f : A -> M B) (g : B -> M C) :
  bind (bind m f) g = bind m (fun x => bind (f x) g).
Proof.
  destruct m as [t [x| |]]; simpl; [|done..].
  destruct (f x) as [t1 [y| |]]; simpl; [|done..].
  destruct (g y) as [t2 r]. by rewrite app_assoc.
Qed.

Lemma bind_cong {A B} (m : M A) (k k' : A -> M B) :
  (forall x, k x = k' x) -> bind m k = bind m k'.
Proof. intros H. destruct m as [t [x| |]]; simpl; [by rewrite H|done..]. Qed.

(** ** The worker pool *)

Section Pool.
Context {A B : Type}.
Implicit Types (f : A -> M B) (xs : list A) (choices : list nat).

(** Whatever the choices, every pending task finishes exactly once. *)
Lemma completion_order_perm choices (pending : list (nat * A)) :
  completion_order (length pending) choices pending ≡ₚ pending.
Proof.
  remember (length pending) as n eqn:Hn.
  revert choices pending Hn.
  induction n as [|n IH]; intros choices pending Hn; simpl.
  - by destruct pending.
  - destruct pending as [|p pending']; [done|].
    set (i := (hd 0%nat choices `mod` length (p :: pending'))%nat).
    assert (Hi : (i < length (p :: pending'))%nat).
    { apply Nat.mod_upper_bound. simpl. lia. }
    destruct (lookup_lt_is_Some_2 _ _ Hi) as [t Ht].
    rewrite Ht.
    etrans; [|symmetry; apply (delete_Permutation _ _ _ Ht)].
    constructor. apply IH.
    rewrite length_delete by eauto. rewrite <- Hn. simpl. lia.
Qed.

Lemma tasks_lookup xs i x :
  tasks xs !! i = Some (i, x) <-> xs !! i = Some x.
Proof.
  unfold tasks. rewrite lookup_zip_with_Some. split.
  - intros (j & y & [= <- <-] & Hj & Hy). done.
  - intros Hx. exists i, x. split; [done|]. split; [|done].
    apply lookup_seq. split; [done|]. by eapply lookup_lt_Some.
Qed.

Lemma tasks_elem_of xs i x : (i, x) ∈ tasks xs <-> xs !! i = Some x.
Proof.
  unfold tasks. split.
  - intros (j & Hj)%list_elem_of_lookup.
    apply lookup_zip_with_Some in Hj as (k & y & [= -> ->] & Hk & Hy).
    apply lookup_seq in Hk as [-> _]. done.
  - intros Hx. apply list_elem_of_lookup. exists i. by apply tasks_lookup.
Qed.

Lemma tasks_keys xs : (tasks xs).*1 = seq 0 (length xs).
Proof. unfold tasks. apply fst_zip. by rewrite length_seq. Qed.

Lemma tasks_length xs : length (tasks xs) = length xs.
Proof. by rewrite <- (length_fmap fst), tasks_keys, length_seq. Qed.

Lemma tasks_complete choices xs :
  completion_order (length xs) choices (tasks xs) ≡ₚ tasks xs.
Proof. rewrite <- (tasks_length xs) at 1. apply completion_order_perm. Qed.

(** A parked result stays put unless its own index is parked again. *)
Lemma park_other (ran : list (nat * M B)) slots i :
  i ∉ ran.*1 -> foldl park slots ran !! i = slots !! i.
Proof.
  revert slots. induction ran as [|r ran IH]; intros slots Hi; [done|].
  simpl in *. apply not_elem_of_cons in Hi as [Hne Hi].
  rewrite IH by done. unfold park. by rewrite lookup_insert_ne.
Qed.

Lemma park_lookup (ran : list (nat * M B)) slots i m :
  NoDup ran.*1 -> (i, m) ∈ ran -> foldl park slots ran !! i = Some m.2.
Proof.
  revert slots. induction ran as [|r ran IH]; intros slots Hnd Hin.
  - by apply elem_of_nil in Hin.
  - simpl in *. apply NoDup_cons in Hnd as [Hr Hnd].
    apply elem_of_cons in Hin as [<-|Hin].
    + rewrite park_other by done. unfold park. simpl.
      by rewrite lookup_insert_eq.
    + by apply IH.
Qed.

Lemma drain_gather (slots : gmap nat (outcome B)) os i :
  (forall j o, os !! j = Some o -> slots !! (i + j)%nat = Some o) ->
  drain slots i (length os) = gather os.
Proof.
  revert i. induction os as [|o os IH]; intros i Hs; [done|].
  simpl. rewrite <- (Nat.add_0_r i) at 1. rewrite (Hs 0%nat o) by done.
  destruct o as [v| |]; [|done..].
  rewrite IH; [done|]. intros j o' Hj.
  replace (S i + j)%nat with (i + S j)%nat by lia. by apply Hs.
Qed.


(** Parking results under fresh indices keeps what is parked. *)
Lemma park_subseteq (ran : list (nat * M B)) slots :
  NoDup ran.*1 -> (forall i, i ∈ ran.*1 -> slots !! i = None) ->
  slots ⊆ foldl park slots ran.
Proof.
  revert slots. induction ran as [|r ran IH]; intros slots Hnd Hfresh; [done|].
  simpl in *. apply NoDup_cons in Hnd as [Hr Hnd].
  etrans; [|apply IH; [done|]].
  - unfold park. apply insert_subseteq, Hfresh. by left.
  - intros i Hi. unfold park. rewrite lookup_insert_ne.
    + apply Hfresh. by right.
    + intros <-. done.
Qed.

(** Once the iterator has raised, further results change nothing. *)
Lemma drain_raise_mono (slots slots' : gmap nat (outcome B)) i n e :
  slots ⊆ slots' -> drain slots i n = Raise e -> drain slots' i n = Raise e.
Proof.
  intros Hsub. revert i. induction n as [|n IH]; intros i; simpl; [done|].
  destruct (slots !! i) as [[v| |]|] eqn:Hi; try done.
  - rewrite (lookup_weaken _ _ _ _ Hi Hsub).
    destruct (drain slots (S i) n) eqn:Hd; try done.
    intros [= <-]. by rewrite (IH _ Hd).
  - rewrite (lookup_weaken _ _ _ _ Hi Hsub). done.
Qed.

(** A raising iterator has seen every result it consumes. *)
Lemma drain_raise_present (slots : gmap nat (outcome B)) os i e :
  (forall j o, slots !! (i + j)%nat = Some o -> os !! j = Some o) ->
  drain slots i (length os) = Raise e ->
  forall j, (j < consumed os)%nat -> is_Some (slots !! (i + j)%nat).
Proof.
  revert i. induction os as [|o os IH]; intros i Hs Hd j Hj; simpl in *; [lia|].
  destruct (slots !! i) as [o'|] eqn:Hi; [|done].
  assert (o = o') as <-.
  { specialize (Hs 0%nat o'). rewrite Nat.add_0_r in Hs.
    specialize (Hs Hi). by injection Hs. }
  destruct j as [|j]; [rewrite Nat.add_0_r; eauto|].
  destruct o as [v| |]; try lia.
  replace (i + S j)%nat with (S i + j)%nat by lia.
  apply IH; [| |lia].
  - intros j' o'' Hj'. apply (Hs (S j')).
    by replace (i + S j')%nat with (S i + j')%nat by lia.
  - by destruct (drain slots (S i) (length os)).
Qed.

(** The workers get through all the tasks, or through a part of them
    that makes the iterator raise. *)
Lemma finished_spec n late (slots : gmap nat (outcome B)) order :
  NoDup order.*1 -> (forall i, i ∈ order.*1 -> slots !! i = None) ->
  finished n late slots order = order
  \/ exists k e,
       finished n late slots order = take k order
       /\ drain (foldl park slots (take k order)) 0 n = Raise e.
Proof.
  revert slots. induction order as [|r order IH]; intros slots Hnd Hfresh.
  - simpl. destruct (raised _); [|by left]. left. by rewrite take_nil.
  - cbn [finished]. destruct (drain slots 0 n) as [vs|e|] eqn:Hd; cbn [raised].
    2:{ right. exists late, e. split; [done|].
        apply (drain_raise_mono slots); [|done].
        apply park_subseteq.
        - rewrite fmap_take.
          eapply sublist_NoDup; [exact Hnd|apply sublist_take].
        - intros i Hi. apply Hfresh. rewrite fmap_take in Hi.
          by apply (subseteq_take late). }
    all: cbn in Hnd; apply NoDup_cons in Hnd as [Hr Hnd];
      destruct (IH (park slots r) Hnd) as [->|(k & e & -> & Hk)];
      [intros i Hi; unfold park; rewrite lookup_insert_ne;
        [apply Hfresh; by right|intros <-; done]
      |by left
      |right; by exists (S k), e].
Qed.

Lemma fmap_run_keys f (l : list (nat * A)) :
  ((fun t : nat * A => (t.1, f t.2)) <$> l).*1 = l.*1.
Proof. rewrite <- list_fmap_compose. by apply list_fmap_ext. Qed.

Lemma drain_all choices f xs :
  drain (foldl park ∅
           ((fun t : nat * A => (t.1, f t.2))
              <$> completion_order (length xs) choices (tasks xs)))
    0 (length xs)
  = gather ((fun x => (f x).2) <$> xs).
Proof.
  set (done_ := completion_order (length xs) choices (tasks xs)).
  assert (Hp : done_ ≡ₚ tasks xs).
  { apply tasks_complete. }
  rewrite <- (length_fmap (fun x => (f x).2) xs).
  apply drain_gather. intros j o Hj. simpl.
  apply list_lookup_fmap_Some in Hj as (x & -> & Hx).
  apply (park_lookup _ _ j (f x)).
  - rewrite fmap_run_keys, Hp, tasks_keys. apply NoDup_seq.
  - apply list_elem_of_fmap. exists (j, x). split; [done|].
    rewrite Hp. by apply tasks_elem_of.
Qed.

(** The results come back in submission order, whatever the workers did:
    the values of all the tasks, or the first failure in submission
    order. *)
Lemma pool_imap_outcome choices late f xs :
  (pool_imap choices late f xs).2 = gather ((fun x => (f x).2) <$> xs).
Proof.
  unfold pool_imap. cbn [snd].
  set (done_ := completion_order (length xs) choices (tasks xs)).
  assert (Hp : done_ ≡ₚ tasks xs).
  { apply tasks_complete. }
  assert (Hnd : NoDup ((fun t : nat * A => (t.1, f t.2)) <$> done_).*1).
  { rewrite fmap_run_keys, Hp, tasks_keys. apply NoDup_seq. }
  destruct (finished_spec (length xs) late ∅ _ Hnd) as [->|(k & e & -> & Hk)].
  - intros i _. apply lookup_empty.
  - apply drain_all.
  - rewrite Hk. rewrite <- (drain_all choices f xs). symmetry.
    fold done_. revert Hnd Hk.
    generalize ((fun t : nat * A => (t.1, f t.2)) <$> done_). intros X Hnd Hk.
    apply (drain_raise_mono (foldl park ∅ (take k X))); [|done].
    rewrite <- (take_drop k X) in Hnd. rewrite fmap_app in Hnd.
    apply NoDup_app in Hnd as (_ & Hdisj & Hnd).
    rewrite <- (take_drop k X) at 2. rewrite foldl_app.
    apply park_subseteq; [done|].
    intros i Hi. rewrite park_other; [apply lookup_empty|].
    intros Hi'. by apply (Hdisj i).
Qed.

Lemma tasks_values xs : (tasks xs).*2 = xs.
Proof. unfold tasks. apply snd_zip. rewrite length_seq. lia. Qed.

Lemma tasks_NoDup xs : NoDup (tasks xs).
Proof.
  apply (NoDup_fmap_1 fst). rewrite tasks_keys. apply NoDup_seq.
Qed.

Lemma tasks_lookup_inv xs i t :
  tasks xs !! i = Some t -> exists x, t = (i, x) /\ xs !! i = Some x.
Proof.
  unfold tasks. intros (j & x & -> & Hj & Hx)%lookup_zip_with_Some.
  apply lookup_seq in Hj as [-> _]. by exists x.
Qed.

(** What is parked is the result of the task of that index. *)
Lemma park_results f xs (T : list (nat * A)) j o :
  NoDup T.*1 -> (forall t, t ∈ T -> t ∈ tasks xs) ->
  foldl park ∅ ((fun t : nat * A => (t.1, f t.2)) <$> T) !! j = Some o ->
  exists x, (j, x) ∈ T /\ xs !! j = Some x /\ o = (f x).2.
Proof.
  intros Hnd Hsub Hj.
  destruct (decide (j ∈ T.*1)) as [Hin|Hout].
  - apply list_elem_of_fmap in Hin as ([j' x] & -> & Hin). cbn in Hj.
    exists x. split; [done|]. split; [by apply tasks_elem_of, Hsub|].
    rewrite (park_lookup _ _ j' (f x)) in Hj.
    + by injection Hj.
    + by rewrite fmap_run_keys.
    + apply list_elem_of_fmap. by exists (j', x).
  - rewrite park_other in Hj by (by rewrite fmap_run_keys).
    by rewrite lookup_empty in Hj.
Qed.

(** The calls of the workers appear at most once per task, in the order
    in which the tasks finished, and no task whose result the iterator
    consumed is missing. *)
Lemma pool_imap_trace choices late f xs :
  exists xs',
    xs' ⊆+ xs
    /\ take (consumed ((fun x => (f x).2) <$> xs)) xs ⊆+ xs'
    /\ (pool_imap choices late f xs).1
       = ETqdm (length xs) :: concat ((fun x => (f x).1) <$> xs').
Proof.
  unfold pool_imap. cbn [fst].
  set (done_ := completion_order (length xs) choices (tasks xs)).
  set (os := (fun x => (f x).2) <$> xs).
  assert (Hp : done_ ≡ₚ tasks xs).
  { apply tasks_complete. }
  assert (Hnd : NoDup ((fun t : nat * A => (t.1, f t.2)) <$> done_).*1).
  { rewrite fmap_run_keys, Hp, tasks_keys. apply NoDup_seq. }
  assert (Hfin : exists k,
            finished (length xs) late ∅
              ((fun t : nat * A => (t.1, f t.2)) <$> done_)
            = (fun t : nat * A => (t.1, f t.2)) <$> take k done_
            /\ ((forall t, t ∈ tasks xs -> t ∈ take k done_)
                \/ exists e,
                     drain (foldl park ∅
                              ((fun t : nat * A => (t.1, f t.2))
                                 <$> take k done_)) 0 (length os)
                     = Raise e)).
  { destruct (finished_spec (length xs) late ∅ _ Hnd)
      as [->|(k & e & -> & Hk)].
    - intros i _. apply lookup_empty.
    - exists (length done_). rewrite firstn_all. split; [done|].
      left. intros t Ht. by rewrite Hp.
    - exists k. rewrite fmap_take. split; [done|]. right. exists e.
      unfold os. by rewrite length_fmap. }
  destruct Hfin as (k & -> & Hk).
  assert (HT : take k done_ ⊆+ tasks xs).
  { rewrite <- Hp. apply submseteq_take. }
  exists (take k done_).*2. split; [|split].
  - rewrite <- (tasks_values xs). by apply fmap_submseteq.
  - rewrite <- (tasks_values xs). rewrite <- fmap_take.
    apply fmap_submseteq, NoDup_submseteq.
    { eapply sublist_NoDup; [apply tasks_NoDup|apply sublist_take]. }
    intros t Ht. destruct Hk as [Hall|[e He]].
    { apply Hall. by apply (subseteq_take (consumed os)). }
    apply elem_of_take in Ht as (j & Hj & Hlt).
    apply tasks_lookup_inv in Hj as (x & -> & Hx).
    assert (HndT : NoDup (take k done_).*1).
    { rewrite fmap_take. eapply sublist_NoDup; [|apply sublist_take].
      rewrite Hp, tasks_keys. apply NoDup_seq. }
    assert (HsubT : forall t, t ∈ take k done_ -> t ∈ tasks xs).
    { intros t Ht. rewrite <- Hp. by apply (subseteq_take k). }
    destruct (drain_raise_present
                (foldl park ∅
                   ((fun t : nat * A => (t.1, f t.2)) <$> take k done_))
                os 0 e) with (j := j) as [o Ho];
      [|done|done|].
    + intros j' o' Hj'. cbn in Hj'.
      apply (park_results f xs) in Hj' as (x' & _ & Hx' & ->); [|done..].
      unfold os. by rewrite list_lookup_fmap, Hx'.
    + cbn in Ho.
      apply (park_results f xs) in Ho as (x' & Hin & Hx' & _); [|done..].
      by assert (x' = x) as <- by congruence.
  - f_equal. rewrite <- !list_fmap_compose. done.
Qed.
End Pool.

(** Results of collaborator calls never block, and they are all there
    exactly when every call returned. *)
Lemma gather_calls {A B} (g : A -> exn + B) (xs : list A) :
  match gather ((fun x =>
                   match g x with inl e => Raise e | inr v => Return v end)
                  <$> xs) with
  | Return vs => Forall2 (fun x v => g x = inr v) xs vs
  | Raise e => exists x, x ∈ xs /\ g x = inl e
  | Hang => False
  end.
Proof.
  induction xs as [|x xs IH]; simpl; [constructor|].
  destruct (g x) as [e|v] eqn:Hx; [exists x; split; [left|done]|].
  destruct (gather _) as [vs|e|]; [|destruct IH as (y & Hy & He)|done].
  - by constructor.
  - exists y. split; [by right|done].
Qed.

(** When every result is a value the iterator has consumed them all, and
    then every task has run. *)
Lemma consumed_all {B} (os : list (outcome B)) vs :
  gather os = Return vs -> consumed os = length os.
Proof.
  revert vs. induction os as [|[v| |] os IH]; intros vs; simpl; try done.
  destruct (gather os) as [vs'| |]; try done. intros _. f_equal. by eapply IH.
Qed.

Lemma ran_all {A B} (g : A -> outcome B) (xs xs' : list A) vs :
  xs' ⊆+ xs -> take (consumed (g <$> xs)) xs ⊆+ xs' ->
  gather (g <$> xs) = Return vs -> xs' ≡ₚ xs.
Proof.
  intros Hsub Hneed Hg. apply (anti_symm submseteq); [done|].
  rewrite (consumed_all _ _ Hg), length_fmap, firstn_all in Hneed. done.
Qed.

(** ** The driver is the composition of its blocks *)

Lemma pydamage_analyze_blocks c s a :
  pydamage_analyze c s a =
  (rm <- setup c a ;
   filt_res <- estimate c s a rm ;
   report c s a rm filt_res >>
   df <- tabulate c a filt_res ;
   export c a df).
Proof.
  unfold pydamage_analyze, setup, estimate, report, tabulate, export.
  repeat first [ rewrite bind_assoc | reflexivity | apply bind_cong; intros ? ].
Qed.

Lemma pydamage_analyze_table c s a :
  pydamage_analyze c s a = (df <- table_of c s a ; export c a df).
Proof.
  rewrite pydamage_analyze_blocks. unfold table_of.
  repeat first [ rewrite bind_assoc | reflexivity | apply bind_cong; intros ? ].
Qed.

Lemma table_of_decimals c s a d :
  table_of c s (with_decimals a d) = table_of c s a.
Proof. reflexivity. Qed.

Lemma concat_singletons {A B} (g : A -> B) (l : list A) :
  concat ((fun x => [g x]) <$> l) = g <$> l.
Proof.
  induction l as [|x l IH]; [done|]. rewrite !fmap_cons. simpl. by f_equal.
Qed.

(** ** What each block logs and returns *)

Section BlockFacts.
Variable c : Collaborators.
Variable s : Schedule.
Variable a : Args.

Lemma setup_eq :
  setup c a =
  match makedir c (outdir a) None (Some (force a)) with
  | inl e =>
      (banner c a ++ [EMakedir (outdir a) None (Some (force a))], Raise e)
  | inr _ =>
      (banner c a ++ [EMakedir (outdir a) None (Some (force a));
                      EPrepareBam (bam a)],
       match prepare_bam c (bam a) with
       | inl e => Raise e
       | inr rm => Return rm
       end)
  end.
Proof.
  unfold setup, banner.
  destruct (verbose a), (makedir c _ _ _) as [e|[]]; simpl; try done;
    by destruct (prepare_bam c _).
Qed.

Lemma estimate_grouped rm :
  group a = true ->
  estimate c s a rm =
  ([EPrint "Estimating and testing Damage"; fit_call a rm.2 None],
   match test_damage c None (bam a) rm.2 (wlen a) (show_al a) (process a)
           (verbose a) with
   | inl e => Raise e
   | inr v => Return [v]
   end).
Proof.
  intros Hg. unfold estimate, fit, fit_call. rewrite Hg. simpl.
  by destruct (test_damage c _ _ _ _ _ _ _).
Qed.

Lemma estimate_per_reference rm :
  group a = false ->
  exists refs',
    refs' ⊆+ rm.1
    /\ take (consumed (fit_outcomes c a rm)) rm.1 ⊆+ refs'
    /\ estimate c s a rm =
    if pool_size a rm.1 <? 1 then
      ([EPrint "Estimating and testing Damage"],
       Raise (ValueError "Number of processes must be at least 1"))
    else
      (EPrint "Estimating and testing Damage"
         :: EPoolEnter (pool_size a rm.1)
         :: ETqdm (length rm.1)
         :: ((fun ref => fit_call a rm.2 (Some ref)) <$> refs')
         ++ [EPoolExit],
       match gather (fit_outcomes c a rm) with
       | Return res => Return (List.filter truthy res)
       | Raise e => Raise e
       | Hang => Hang
       end).
Proof.
  intros Hg.
  destruct (pool_imap_trace (fit_order s) (fit_late s)
              (fun ref => fit c a rm.2 (Some ref)) rm.1)
    as (refs' & Hsub & Hneed & Ht).
  exists refs'. split; [done|]. split; [done|].
  unfold estimate, with_pool. rewrite Hg.
  destruct (pool_size a rm.1 <? 1) eqn:Hn; [done|].
  pose proof (pool_imap_outcome (fit_order s) (fit_late s)
                (fun ref => fit c a rm.2 (Some ref)) rm.1) as Ho.
  destruct (pool_imap _ _ _) as [t r]. simpl in Ht, Ho. subst t r.
  unfold fit_outcomes, fit, fit_call, call. simpl.
  rewrite concat_singletons.
  destruct (gather _); simpl; by rewrite ?app_nil_r.
Qed.

Lemma report_eq rm filt_res :
  exists filt',
    filt' ⊆+ filt_res
    /\ take (consumed (plot_outcomes c a filt_res)) filt_res ⊆+ filt'
    /\ report c s a rm filt_res =
    if (length filt_res =? 0)%nat then
      ([count_line filt_res; empty_warning], Return tt)
    else if plot a then
      match makedir c (plotdir a) (Some false) None with
      | inl e =>
          ([count_line filt_res; EPrint (nl +:+ "Generating Pydamage plots");
            EMakedir (plotdir a) (Some false) None], Raise e)
      | inr _ =>
          if pool_size a rm.1 <? 1 then
            ([count_line filt_res;
              EPrint (nl +:+ "Generating Pydamage plots");
              EMakedir (plotdir a) (Some false) None],
             Raise (ValueError "Number of processes must be at least 1"))
          else
            (count_line filt_res
               :: EPrint (nl +:+ "Generating Pydamage plots")
               :: EMakedir (plotdir a) (Some false) None
               :: EPoolEnter (pool_size a rm.1)
               :: ETqdm (length filt_res)
               :: ((fun res => EDamageplot res (plotdir a) (wlen a)) <$> filt')
               ++ [EPoolExit],
             match gather (plot_outcomes c a filt_res) with
             | Return _ => Return tt
             | Raise e => Raise e
             | Hang => Hang
             end)
      end
    else ([count_line filt_res], Return tt).
Proof.
  destruct (pool_imap_trace (plot_order s) (plot_late s)
              (fun res => call (EDamageplot res (plotdir a) (wlen a))
                            (damageplot c res (plotdir a) (wlen a)))
              filt_res) as (filt' & Hsub & Hneed & Ht).
  pose proof (pool_imap_outcome (plot_order s) (plot_late s)
                (fun res => call (EDamageplot res (plotdir a) (wlen a))
                              (damageplot c res (plotdir a) (wlen a)))
                filt_res) as Ho.
  exists filt'. split; [done|]. split; [done|].
  unfold report, with_pool, when. fold (plotdir a).
  destruct (pool_imap _ _ _) as [t r]. cbn [fst snd] in Ht, Ho. subst t r.
  fold (plot_outcomes c a filt_res).
  assert (Hlt : (0 <? length filt_res)%nat
                = negb (length filt_res =? 0)%nat) by (by destruct filt_res).
  rewrite Hlt. generalize (gather (plot_outcomes c a filt_res)). intros og.
  destruct (length filt_res =? 0)%nat; simpl.
  { rewrite andb_false_r. reflexivity. }
  rewrite andb_true_r.
  destruct (plot a); simpl; [|reflexivity].
  destruct (makedir c (plotdir a) _ _) as [e|[]]; simpl; [reflexivity|].
  destruct (pool_size a rm.1 <? 1); simpl; [reflexivity|].
  rewrite concat_singletons.
  destruct og; simpl; rewrite ?app_nil_r; reflexivity.
Qed.

Lemma tabulate_eq filt_res :
  tabulate c a filt_res =
  match pandas_processing c filt_res (wlen a) with
  | inl e => ([EPandasProcessing filt_res (wlen a)], Raise e)
  | inr df_pydamage =>
      match prepare_data c df_pydamage with
      | inl e =>
          ([EPandasProcessing filt_res (wlen a); EPrepareData df_pydamage],
           Raise e)
      | inr prep =>
          match glm_predict c prep (glm_model_params c) with
          | inl e =>
              ([EPandasProcessing filt_res (wlen a);
                EPrepareData df_pydamage;
                EGlmPredict prep (glm_model_params c)], Raise e)
          | inr df_glm =>
              ([EPandasProcessing filt_res (wlen a);
                EPrepareData df_pydamage;
                EGlmPredict prep (glm_model_params c);
                EMerge df_glm df_pydamage],
               Return (merge df_glm df_pydamage))
          end
      end
  end.
Proof.
  unfold tabulate.
  destruct (pandas_processing c _ _) as [e|d]; simpl; [done|].
  destruct (prepare_data c d) as [e|p]; simpl; [done|].
  by destruct (glm_predict c p _).
Qed.

Lemma export_eq df :
  export c a df =
  ([EDfToCsv df (outdir a) (decimals a)],
   match df_to_csv c df (outdir a) (decimals a) with
   | inl e => Raise e
   | inr _ => Return df
   end).
Proof. unfold export. simpl. by destruct (df_to_csv c _ _ _). Qed.
End BlockFacts.

(** ** The run, block by block *)

Lemma run_eq c s a :
  pydamage_analyze c s a =
  match (setup c a).2 with
  | Return rm =>
      match (estimate c s a rm).2 with
      | Return filt_res =>
          match (report c s a rm filt_res).2 with
          | Return _ =>
              match (tabulate c a filt_res).2 with
              | Return df =>
                  ((setup c a).1 ++ (estimate c s a rm).1
                   ++ (report c s a rm filt_res).1
                   ++ (tabulate c a filt_res).1 ++ (export c a df).1,
                   (export c a df).2)
              | o =>
                  ((setup c a).1 ++ (estimate c s a rm).1
                   ++ (report c s a rm filt_res).1
                   ++ (tabulate c a filt_res).1, abort o)
              end
          | o =>
              ((setup c a).1 ++ (estimate c s a rm).1
               ++ (report c s a rm filt_res).1, abort o)
          end
      | o => ((setup c a).1 ++ (estimate c s a rm).1, abort o)
      end
  | o => ((setup c a).1, abort o)
  end.
Proof.
  rewrite pydamage_analyze_blocks.
  destruct (setup c a) as [t1 [rm| |]]; simpl; [|done..].
  destruct (estimate c s a rm) as [t2 [filt| |]]; simpl; [|done..].
  destruct (report c s a rm filt) as [t3 [[]| |]]; simpl; [|done..].
  destruct (tabulate c a filt) as [t4 [df| |]]; simpl; [|done..].
  by destruct (export c a df) as [t5 o].
Qed.

(** Case analysis over a run: every collaborator either raises or returns. *)
Ltac run_cases c s a :=
  rewrite (run_eq c s a), (setup_eq c a);
  destruct (makedir c (outdir a) None (Some (force a))) as [?e|[]] eqn:Hmakedir;
    cbn [fst snd abort];
  [|destruct (prepare_bam c (bam a)) as [?e|rm] eqn:Hbam; cbn [fst snd abort];
    [|destruct (group a) eqn:Hgroup;
      [rewrite (estimate_grouped c s a rm Hgroup);
       destruct (test_damage c None (bam a) rm.2 (wlen a) (show_al a)
                   (process a) (verbose a)) as [?e|v] eqn:Hfit;
         cbn [fst snd abort]
      |let refs' := fresh "refs'" in
       let Hsub := fresh "Hsub" in
       let Hneed := fresh "Hneed" in
       let Hest := fresh "Hest" in
       destruct (estimate_per_reference c s a rm Hgroup)
         as (refs' & Hsub & Hneed & Hest);
       rewrite Hest; clear Hest;
       destruct (pool_size a rm.1 <? 1) eqn:Hpool; cbn [fst snd abort];
       [|pose proof (gather_calls
                       (fun r => test_damage c (Some r) (bam a) rm.2 (wlen a)
                                   (show_al a) (process a) (verbose a)) rm.1)
           as Hres;
         change (gather _) with (gather (fit_outcomes c a rm)) in Hres;
         destruct (gather (fit_outcomes c a rm)) as [res|?e|] eqn:Hgather;
           cbn [fst snd abort];
         [pose proof (ran_all _ _ _ _ Hsub Hneed Hgather) as Hperm| |done]]]]].

Ltac tail_cases c s a rm filt :=
  let filt' := fresh "filt'" in
  let Hsub' := fresh "Hsub'" in
  let Hneed' := fresh "Hneed'" in
  let Hrep := fresh "Hrep" in
  destruct (report_eq c s a rm filt) as (filt' & Hsub' & Hneed' & Hrep);
  rewrite Hrep; clear Hrep;
  destruct (length filt =? 0)%nat eqn:Hlen; cbn [fst snd abort];
  [try (simpl in Hlen; discriminate Hlen)
  |destruct (plot a) eqn:Hplot; cbn [fst snd abort];
    [destruct (makedir c (plotdir a) (Some false) None) as [?e|[]] eqn:Hplotdir;
       cbn [fst snd abort];
     [|destruct (pool_size a rm.1 <? 1) eqn:Hpool'; cbn [fst snd abort];
       [|pose proof (gather_calls
                       (fun r => damageplot c r (plotdir a) (wlen a)) filt)
           as Hplots;
         change (gather _) with (gather (plot_outcomes c a filt)) in Hplots;
         destruct (gather (plot_outcomes c a filt)) as [?|?e|] eqn:Hgplots;
           cbn [fst snd abort];
         [pose proof (ran_all _ _ _ _ Hsub' Hneed' Hgplots) as Hperm'
         | |done]]]
    |]];
  rewrite ?(tabulate_eq c a filt);
  try (destruct (pandas_processing c filt (wlen a)) as [?e|df_pydamage]
         eqn:Hpandas;
         cbn [fst snd abort];
       [|destruct (prepare_data c df_pydamage) as [?e|prep] eqn:Hprep;
           cbn [fst snd abort];
         [|destruct (glm_predict c prep (glm_model_params c)) as [?e|df_glm]
             eqn:Hglm; cbn [fst snd abort];
           [|rewrite (export_eq c a (merge df_glm df_pydamage));
             destruct (df_to_csv c (merge df_glm df_pydamage) (outdir a)
                         (decimals a)) as [?e|[]] eqn:Hcsv;
               cbn [fst snd abort]]]]).

Ltac all_cases c s a :=
  run_cases c s a;
  try match goal with
      | Hf : test_damage c None _ ?rm.2 _ _ _ _ = inr ?v |- _ =>
          tail_cases c s a rm (@cons pyval v nil)
      | Hg : gather (fit_outcomes c a ?rm) = Return ?res |- _ =>
          tail_cases c s a rm (List.filter truthy res)
      end.

(** ** Reading explicit traces *)

Lemma banner_Forall c a (P : event -> Prop) :
  (forall s, P (EPrint s)) -> Forall P (banner c a).
Proof.
  intros H. unfold banner. destruct (verbose a); by repeat constructor.
Qed.

Lemma banner_elem c a e : e ∈ banner c a -> exists s, e = EPrint s.
Proof.
  unfold banner. destruct (verbose a); [|by intros ?%elem_of_nil].
  intros ->%list_elem_of_singleton. eauto.
Qed.

Lemma count_line_one v :
  count_line [v] = EPrint "1 contig(s) successfully analyzed by Pydamage".
Proof. reflexivity. Qed.

Ltac trace_forall :=
  repeat first [rewrite Forall_app | rewrite Forall_cons | rewrite Forall_fmap];
  repeat split;
  first [ done
        | apply banner_Forall; done
        | apply Forall_true; done
        | idtac ].

(** Take a membership hypothesis on an explicit trace apart. *)
Ltac trace_inv H :=
  repeat first
    [ apply elem_of_app in H as [H|H]
    | apply elem_of_cons in H as [H|H]
    | apply elem_of_nil in H; destruct H
    | apply banner_elem in H as [? H]
    | apply list_elem_of_fmap in H as (? & H & ?) ];
  try discriminate H.

(** Bring an explicit trace into the form [l1 ++ x :: l2 ++ y :: ...]. *)
Ltac trace_norm :=
  repeat first [rewrite <- app_assoc | rewrite <- app_comm_cons
               | progress cbn [app]].

Ltac trace_elem :=
  lazymatch goal with
  | |- _ ∈ _ :: _ =>
      first [apply list_elem_of_here | apply list_elem_of_further; trace_elem]
  | |- _ ∈ _ ++ _ =>
      apply elem_of_app;
      first [left; trace_elem | right; trace_elem]
  end.

(** Membership in a trace that computes to a list of explicit events. *)
Ltac trace_elem_compute :=
  apply list_elem_of_In; vm_compute;
  repeat first [left; reflexivity | right].

Lemma count_if_app p t1 t2 :
  count_if p (t1 ++ t2) = (count_if p t1 + count_if p t2)%nat.
Proof. unfold count_if. by rewrite List.filter_app, length_app. Qed.

Lemma count_if_cons p e t :
  count_if p (e :: t) = ((if p e then 1 else 0) + count_if p t)%nat.
Proof. unfold count_if. simpl. by destruct (p e). Qed.

Lemma count_if_zero p t :
  Forall (fun e => p e = false) t -> count_if p t = 0%nat.
Proof.
  unfold count_if. induction 1 as [|e t He _ IH]; [done|].
  simpl. by rewrite He.
Qed.

Lemma count_if_banner c a p :
  (forall s, p (EPrint s) = false) -> count_if p (banner c a) = 0%nat.
Proof. intros H. apply count_if_zero, banner_Forall. done. Qed.

Lemma count_if_fmap_zero {A} p (f : A -> event) l :
  (forall x, p (f x) = false) -> count_if p (f <$> l) = 0%nat.
Proof. intros H. apply count_if_zero, Forall_fmap, Forall_true. done. Qed.

Lemma count_if_fmap_all {A} p (f : A -> event) l :
  (forall x, p (f x) = true) -> count_if p (f <$> l) = length l.
Proof.
  intros H. unfold count_if. induction l as [|x l IH]; [done|].
  rewrite fmap_cons. simpl. rewrite H. simpl. by rewrite IH.
Qed.

Ltac trace_count :=
  repeat first
    [ rewrite count_if_app
    | rewrite count_if_cons
    | rewrite count_if_banner by done
    | rewrite count_if_fmap_zero by done
    | rewrite count_if_fmap_all by done ];
  change (count_if _ []) with 0%nat;
  simpl.

Lemma pools_neutral n t :
  Forall (fun e => is_pool e = false) t -> foldl pools_step n t = n.
Proof.
  intros H. revert n. induction H as [|e t He _ IH]; intros n; [done|].
  simpl. rewrite IH. by destruct e.
Qed.

Ltac trace_pools :=
  unfold open_pools;
  repeat first
    [ rewrite foldl_app
    | rewrite (pools_neutral _ (banner _ _)) by (apply banner_Forall; done)
    | rewrite (pools_neutral _ (_ <$> _))
        by (apply Forall_fmap, Forall_true; done)
    | progress cbn [foldl pools_step fit_call count_line empty_warning
                    Nat.pred] ].

Lemma lfilter_none (p : event -> bool) t :
  Forall (fun e => p e = false) t -> List.filter p t = [].
Proof. induction 1 as [|e t He _ IH]; [done|]. simpl. by rewrite He. Qed.

Lemma lfilter_all (p : event -> bool) t :
  Forall (fun e => p e = true) t -> List.filter p t = t.
Proof. induction 1 as [|e t He _ IH]; [done|]. simpl. by rewrite He, IH. Qed.

Ltac trace_filter :=
  repeat first
    [ rewrite List.filter_app
    | rewrite (lfilter_none _ (banner _ _)) by (apply banner_Forall; done)
    | rewrite (lfilter_none _ (_ <$> _))
        by (apply Forall_fmap, Forall_true; done)
    | rewrite (lfilter_all _ (_ <$> _))
        by (apply Forall_fmap, Forall_true; done)
    | progress cbn [List.filter app is_fit is_pool fit_call count_line
                    empty_warning] ].

Lemma filter_truthy_Forall (l : list pyval) :
  Forall (fun v => truthy v = true) (List.filter truthy l).
Proof.
  apply Forall_forall. intros v Hv%list_elem_of_In.
  by apply List.filter_In in Hv as [_ ?].
Qed.

Lemma all_falsy_filter (g : string -> exn + pyval) refs res :
  Forall2 (fun r v => g r = inr v) refs res ->
  Forall (fun r => exists v, g r = inr v /\ truthy v = false) refs ->
  List.filter truthy res = [].
Proof.
  induction 1 as [|r v refs res Hr _ IH]; intros Hall; [done|].
  apply Forall_cons in Hall as [(v' & Hv' & Hf) Hall].
  assert (v' = v) as -> by congruence.
  simpl. rewrite Hf. by apply IH.
Qed.

(** ** Cutting a trace at an event *)

Lemma cut_here_or_later {A} (x e : A) l pre post :
  x :: l = pre ++ e :: post ->
  (pre = [] /\ x = e /\ l = post)
  \/ (exists pre', pre = x :: pre' /\ l = pre' ++ e :: post).
Proof. destruct pre as [|y pre]; simpl; intros [= -> ->]; eauto. Qed.

Lemma cut_later (p : event -> bool) x e l pre post :
  p x = false -> p e = true ->
  x :: l = pre ++ e :: post ->
  exists pre', pre = x :: pre' /\ l = pre' ++ e :: post.
Proof.
  intros Hx He [(_ & -> & _)|H]%cut_here_or_later; [congruence|done].
Qed.

Lemma cut_after (p : event -> bool) t e l pre post :
  Forall (fun x => p x = false) t -> p e = true ->
  t ++ l = pre ++ e :: post ->
  exists pre', pre = t ++ pre' /\ l = pre' ++ e :: post.
Proof.
  intros Ht He. revert pre. induction Ht as [|x t Hx _ IH]; intros pre H.
  - by exists pre.
  - simpl in H. apply (cut_later p) in H as (pre' & -> & H); [|done..].
    apply IH in H as (pre'' & -> & H). by exists pre''.
Qed.

Lemma cut_nil {A} (e : A) pre post : [] = pre ++ e :: post -> False.
Proof. by destruct pre. Qed.

(** Find the positions at which an event with [p] can sit in an explicit
    trace [H : trace = pre ++ e :: post], given [He : p e = true]. *)
Ltac trace_cut p H He :=
  repeat first [rewrite <- app_assoc in H | rewrite <- app_comm_cons in H
               | progress cbn [app] in H];
  repeat
    lazymatch type of H with
    | [] = _ ++ _ :: _ => destruct (cut_nil _ _ _ H)
    | ?x :: _ = _ ++ _ :: _ =>
        let b := eval cbn in (p x) in
        lazymatch b with
        | false =>
            let pre' := fresh "pre" in
            apply (cut_later p) in H as (pre' & -> & H); [|reflexivity|exact He]
        | _ =>
            let pre' := fresh "pre" in
            apply cut_here_or_later in H as [(-> & <- & <-)|(pre' & -> & H)]
        end
    | ?t ++ _ = _ ++ _ :: _ =>
        let pre' := fresh "pre" in
        apply (cut_after p) in H as (pre' & -> & H);
        [|first [apply banner_Forall; done
                |apply Forall_fmap, Forall_true; done]
         |exact He]
    end.

(** ** Two runs whose collaborators answer alike *)

Lemma bind_agree {A B} c1 c2 (m1 m2 : M A) (k1 k2 : A -> M B) :
  agree c1 c2 m1 m2 -> (forall x, agree c1 c2 (k1 x) (k2 x)) ->
  agree c1 c2 (bind m1 k1) (bind m2 k2).
Proof.
  unfold agree. intros Hm Hk Hall.
  destruct m1 as [t1 o1], m2 as [t2 o2]. cbn [fst snd] in Hm.
  destruct o1 as [x| |]; cbn [bind fst snd] in Hall.
  - specialize (Hk x). cbn [bind]. destruct (k1 x) as [t1' r1].
    cbn [fst snd] in *. apply Forall_app in Hall as [Ha Hb].
    destruct (Hm Ha) as [-> Hp]. cbn [bind].
    destruct (k2 x) as [t2' r2]. cbn [fst snd] in *.
    destruct (Hk Hb) as [-> Hp']. split; [done|]. intros v ->.
    by rewrite (Hp x eq_refl), (Hp' v eq_refl).
  - destruct (Hm Hall) as [-> _]. cbn. split; [done|]. by intros v [=].
  - destruct (Hm Hall) as [-> _]. cbn. split; [done|]. by intros v [=].
Qed.

(** The iterator only looks at the results it consumes. *)
Lemma gather_agree {A B} (o1 o2 : A -> outcome B) xs :
  (forall x, x ∈ take (consumed (o1 <$> xs)) xs -> o2 x = o1 x) ->
  gather (o2 <$> xs) = gather (o1 <$> xs).
Proof.
  induction xs as [|x xs IH]; intros H; [done|].
  rewrite !fmap_cons in *. cbn [gather consumed] in *.
  assert (Hx : o2 x = o1 x).
  { apply H. destruct (o1 x); left. }
  rewrite Hx. destruct (o1 x) as [v| |]; [|done..].
  rewrite IH; [done|]. intros y Hy. apply H. by right.
Qed.

(** Take the answers of the calls of an explicit trace apart. *)
Ltac answers H :=
  repeat first
    [ rewrite Forall_app in H
    | rewrite Forall_cons in H
    | rewrite Forall_fmap in H ];
  cbn [same_answer fit_call] in H.

Section Agree.
Variables c1 c2 : Collaborators.
Variables s1 s2 : Schedule.
Variable a : Args.
Hypothesis Hversion : version c1 = version c2.
Hypothesis Hparams : glm_model_params c1 = glm_model_params c2.

Lemma setup_agree : agree c1 c2 (setup c1 a) (setup c2 a).
Proof.
  unfold agree. rewrite !setup_eq. unfold banner. rewrite <- Hversion.
  destruct (makedir c1 _ _ _) as [e|[]] eqn:Hm; cbn [fst snd]; intros H;
    answers H; destruct H as (_ & H); cbn in H.
  - destruct H as [<- _]. by rewrite Hm.
  - destruct H as (<- & <- & _). by rewrite Hm.
Qed.

Lemma estimate_agree rm :
  agree c1 c2 (estimate c1 s1 a rm) (estimate c2 s2 a rm).
Proof.
  unfold agree. destruct (group a) eqn:Hg.
  - rewrite !estimate_grouped by done. cbn [fst snd]. intros H.
    answers H. destruct H as (_ & <- & _). done.
  - destruct (estimate_per_reference c1 s1 a rm Hg) as (r1 & Hs1 & Hn1 & ->).
    destruct (estimate_per_reference c2 s2 a rm Hg) as (r2 & Hs2 & Hn2 & ->).
    unfold pool_size. destruct (_ <? 1); cbn [fst snd]; [done|]. intros H.
    answers H. destruct H as (_ & _ & _ & H & _).
    assert (Hsame : gather (fit_outcomes c2 a rm)
                    = gather (fit_outcomes c1 a rm)).
    { apply gather_agree. intros x Hx. unfold fit, call. cbn [snd].
      assert (Hin : x ∈ r1) by (by eapply elem_of_submseteq).
      by rewrite (proj1 (Forall_forall _ _) H x Hin). }
    rewrite Hsame. split; [done|]. intros v Hv.
    destruct (gather (fit_outcomes c1 a rm)) as [res| |] eqn:Hres; [|done..].
    pose proof (ran_all _ _ _ _ Hs1 Hn1 Hres) as Hp1.
    pose proof (ran_all _ _ _ _ Hs2 Hn2 Hsame) as Hp2.
    do 3 constructor. apply Permutation_app_tail, fmap_Permutation.
    by rewrite Hp1, Hp2.
Qed.

Lemma report_agree rm filt :
  agree c1 c2 (report c1 s1 a rm filt) (report c2 s2 a rm filt).
Proof.
  unfold agree.
  destruct (report_eq c1 s1 a rm filt) as (f1 & Hs1 & Hn1 & ->).
  destruct (report_eq c2 s2 a rm filt) as (f2 & Hs2 & Hn2 & ->).
  destruct (length filt =? 0)%nat; cbn [fst snd]; [done|].
  destruct (plot a); cbn [fst snd]; [|done].
  destruct (makedir c1 (plotdir a) _ _) as [e|[]] eqn:Hm; cbn [fst snd].
  { intros H. answers H. destruct H as (_ & _ & <- & _). by rewrite Hm. }
  unfold pool_size. destruct (_ <? 1); cbn [fst snd].
  { intros H. answers H. destruct H as (_ & _ & <- & _). by rewrite Hm. }
  intros H. answers H. destruct H as (_ & _ & <- & _ & _ & H & _).
  rewrite Hm.
  assert (Hsame : gather (plot_outcomes c2 a filt)
                  = gather (plot_outcomes c1 a filt)).
  { apply gather_agree. intros x Hx. unfold call. cbn [snd].
    assert (Hin : x ∈ f1) by (by eapply elem_of_submseteq).
    by rewrite (proj1 (Forall_forall _ _) H x Hin). }
  rewrite Hsame. split; [done|]. intros v Hv.
  destruct (gather (plot_outcomes c1 a filt)) as [res| |] eqn:Hres; [|done..].
  pose proof (ran_all _ _ _ _ Hs1 Hn1 Hres) as Hp1.
  pose proof (ran_all _ _ _ _ Hs2 Hn2 Hsame) as Hp2.
  do 5 constructor. apply Permutation_app_tail, fmap_Permutation.
  by rewrite Hp1, Hp2.
Qed.

Lemma tabulate_agree filt :
  agree c1 c2 (tabulate c1 a filt) (tabulate c2 a filt).
Proof.
  unfold agree. rewrite !tabulate_eq. rewrite <- Hparams.
  destruct (pandas_processing c1 _ _) as [e|R] eqn:HR; cbn [fst snd].
  { intros H. answers H. destruct H as (<- & _). by rewrite HR. }
  destruct (prepare_data c1 R) as [e|P] eqn:HP; cbn [fst snd].
  { intros H. answers H. destruct H as (<- & H2 & _).
    rewrite HR. cbv beta iota. by rewrite <- H2, HP. }
  destruct (glm_predict c1 P _) as [e|L] eqn:HL; cbn [fst snd].
  { intros H. answers H. destruct H as (<- & H2 & H3 & _).
    rewrite HR. cbv beta iota. rewrite <- H2, HP. cbv beta iota.
    by rewrite <- H3, HL. }
  intros H. answers H. destruct H as (<- & H2 & H3 & _).
  rewrite HR. cbv beta iota. rewrite <- H2, HP. cbv beta iota.
  by rewrite <- H3, HL.
Qed.

Lemma export_agree df : agree c1 c2 (export c1 a df) (export c2 a df).
Proof.
  unfold agree. rewrite !export_eq. cbn [fst snd]. intros H.
  answers H. destruct H as (<- & _). done.
Qed.

Lemma run_agree :
  agree c1 c2 (pydamage_analyze c1 s1 a) (pydamage_analyze c2 s2 a).
Proof.
  rewrite !pydamage_analyze_blocks.
  apply bind_agree; [apply setup_agree|]. intros rm.
  apply bind_agree; [apply estimate_agree|]. intros filt.
  apply bind_agree; [apply report_agree|]. intros _.
  apply bind_agree; [apply tabulate_agree|]. intros df.
  apply export_agree.
Qed.
End Agree.


(** ** Lists of results *)

Lemma Forall2_returns {A B} (g : A -> exn + B) xs vs x :
  Forall2 (fun x v => g x = inr v) xs vs -> x ∈ xs -> exists v, g x = inr v.
Proof.
  induction 1 as [|y v xs vs Hy _ IH]; intros Hx.
  - by apply elem_of_nil in Hx.
  - apply elem_of_cons in Hx as [->|Hx]; [by exists v|by apply IH].
Qed.

Lemma Forall2_same_results {A B} (g : A -> exn + B) xs vs ws :
  Forall2 (fun x v => g x = inr v) xs vs ->
  Forall2 (fun x v => g x = inr v) xs ws -> vs = ws.
Proof.
  intros H. revert ws. induction H as [|x v xs vs Hx _ IH]; intros ws Hw.
  - by inversion Hw.
  - inversion Hw as [|? w ? ws' Hx' Hw']; subst. f_equal; [congruence|].
    by apply IH.
Qed.

Lemma Forall2_elem_r {A B} (P : A -> B -> Prop) xs ys y :
  Forall2 P xs ys -> y ∈ ys -> exists x, x ∈ xs /\ P x y.
Proof.
  intros H (i & Hi)%list_elem_of_lookup.
  destruct (Forall2_lookup_r _ _ _ _ _ H Hi) as (x & Hx & Hxy).
  exists x. split; [|done]. by eapply list_elem_of_lookup_2.
Qed.

(** A reference whose result is falsy has no row in a frame that is keyed
    by the references of the truthy results. *)
Lemma falsy_reference_has_no_row (g : string -> exn + pyval) refs outs R r v :
  Forall2 (fun r v => g r = inr v) refs outs ->
  Forall2 names_its_reference refs outs ->
  keyed_by_reference (List.filter truthy outs) R ->
  g r = inr v -> truthy v = false -> r ∉ index R.
Proof.
  intros Hf Hn Hk Hr Hv (v' & Hin & Hv')%Hk.
  apply list_elem_of_In, List.filter_In in Hin as [Hin%list_elem_of_In Ht].
  apply list_elem_of_lookup in Hin as (i & Hi).
  destruct (Forall2_lookup_r _ _ _ _ _ Hf Hi) as (r' & Hr' & Hg).
  destruct (Forall2_lookup_r _ _ _ _ _ Hn Hi) as (r'' & Hr'' & Hname).
  assert (r'' = r') as -> by congruence.
  assert (r' = r) as -> by (specialize (Hname Ht); congruence).
  congruence.
Qed.

(** ** The join of the two frames *)

Lemma merge_rows_elem L R k x :
  (k, x) ∈ rows (merge L R) <->
  exists l r, x = l ++ r /\ (k, l) ∈ rows L /\ (k, r) ∈ rows R.
Proof.
  unfold merge. cbn [rows]. rewrite list_elem_of_In, in_flat_map. split.
  - intros ([k' l] & Hl%list_elem_of_In & Hx%list_elem_of_In).
    apply list_elem_of_fmap in Hx as ([k'' r] & [= -> ->] & Hr).
    apply list_elem_of_filter in Hr as [Hk Hr]. cbn in Hk. subst k''.
    by exists l, r.
  - intros (l & r & -> & Hl & Hr). exists (k, l).
    split; [by apply list_elem_of_In|]. apply list_elem_of_In.
    apply list_elem_of_fmap. exists (k, r). split; [done|].
    by apply list_elem_of_filter.
Qed.

Lemma merge_index_elem L R k :
  k ∈ index (merge L R) <-> k ∈ index L /\ k ∈ index R.
Proof.
  unfold index. rewrite !list_elem_of_fmap. split.
  - intros ([k' x] & -> & (l & r & _ & Hl & Hr)%merge_rows_elem).
    split; [by exists (k', l)|by exists (k', r)].
  - intros [([k1 l] & -> & Hl) ([k2 r] & Hk & Hr)]. cbn in Hk. subst k2.
    exists (k1, l ++ r). split; [done|]. apply merge_rows_elem. eauto.
Qed.

(** With unique labels on the right, a label selects one row. *)
Lemma filter_label_none (rs : list (string * list cell)) k :
  k ∉ rs.*1 -> filter (fun r : string * list cell => r.1 = k) rs = [].
Proof.
  induction rs as [|[k' r'] rs IH]; intros Hk; [done|].
  cbn in Hk. apply not_elem_of_cons in Hk as [Hne Hk].
  rewrite filter_cons. cbn. rewrite decide_False by done. by apply IH.
Qed.

Lemma filter_label_one (rs : list (string * list cell)) k :
  NoDup rs.*1 -> k ∈ rs.*1 ->
  exists r, filter (fun r : string * list cell => r.1 = k) rs = [(k, r)].
Proof.
  induction rs as [|[k' r'] rs IH]; intros Hnd Hk.
  - by apply elem_of_nil in Hk.
  - cbn in Hnd, Hk. apply NoDup_cons in Hnd as [Hk' Hnd].
    rewrite filter_cons. cbn. destruct (decide (k' = k)) as [->|Hne].
    + exists r'. by rewrite filter_label_none.
    + apply elem_of_cons in Hk as [->|Hk]; [done|]. by apply IH.
Qed.

(** Every left row finds its one partner: no row is lost or doubled. *)
Lemma merge_index_same L R :
  NoDup (index R) -> (forall k, k ∈ index L -> k ∈ index R) ->
  index (merge L R) = index L.
Proof.
  unfold index, merge. cbn [rows]. intros Hnd.
  induction (rows L) as [|[k l] ls IH]; intros Hsub; [done|].
  cbn [flat_map fst snd]. rewrite fmap_app, IH.
  - destruct (filter_label_one (rows R) k Hnd) as [r ->]; [|done].
    apply Hsub. cbn. by left.
  - intros k' Hk'. apply Hsub. cbn. by right.
Qed.

(** * The claims *)

(** ** C1: what the writer is handed *)

(** C1, counterexample: with [decimals=2] the table that reaches
    [utils.df_to_csv] still holds 0.60031 and 0.012345. *)
Lemma writer_gets_unrounded_cells :
  EDfToCsv Sample.joined "out" 2
    ∈ (pydamage_analyze Sample.env Sample.fifo (Sample.args_decimals 2)).1
  /\ frame_rounded 2 Sample.joined = false.
Proof. split; [trace_elem_compute|reflexivity]. Qed.

(** C1 (as amended): the table that reaches [utils.df_to_csv] is the join
    of the two frames as it stands, the very table the driver returns; it
    comes with the caller's [outdir] and [decimals] unchanged, and
    [decimals] is -1 when the caller leaves it out.  The driver rounds
    nothing before the hand-off: the precision is the caller's to choose
    and the writer's to apply. *)
Theorem writer_gets_the_unrounded_table c s a df o d :
  EDfToCsv df o d ∈ (pydamage_analyze c s a).1 ->
  o = outdir a
  /\ d = decimals a
  /\ (exists L R, EMerge L R ∈ (pydamage_analyze c s a).1 /\ df = merge L R)
  /\ (forall df', (pydamage_analyze c s a).2 = Return df' -> df' = df)
  /\ (forall file, decimals (defaults file) = -1).
Proof.
  all_cases c s a; intros H; trace_inv H; simplify_eq;
    (split; [done|]); (split; [done|]);
    (split; [eexists _, _; split; [trace_elem|done]|]);
    (split; [|done]); intros df'; congruence.
Qed.

(** C1, witness: the sample run with [decimals=2]. *)
Lemma writer_gets_the_unrounded_table_witness :
  EDfToCsv Sample.joined "out" 2
    ∈ (pydamage_analyze Sample.env Sample.fifo (Sample.args_decimals 2)).1
  /\ ("out" = outdir (Sample.args_decimals 2)
      /\ 2 = decimals (Sample.args_decimals 2)
      /\ (exists L R,
            EMerge L R
              ∈ (pydamage_analyze Sample.env Sample.fifo
                   (Sample.args_decimals 2)).1
            /\ Sample.joined = merge L R)
      /\ (forall df',
            (pydamage_analyze Sample.env Sample.fifo
               (Sample.args_decimals 2)).2 = Return df' ->
            df' = Sample.joined)
      /\ (forall file, decimals (defaults file) = -1)).
Proof.
  assert (H : EDfToCsv Sample.joined "out" 2
                ∈ (pydamage_analyze Sample.env Sample.fifo
                     (Sample.args_decimals 2)).1)
    by trace_elem_compute.
  split; [exact H|].
  exact (writer_gets_the_unrounded_table Sample.env Sample.fifo
           (Sample.args_decimals 2) Sample.joined "out" 2 H).
Defined.

(** ** C2: [decimals] and the returned table *)

(** C2: two calls that differ in [decimals] only return the same table
    whenever both return, and log the same events apart from the call of
    the writer. *)
Theorem decimals_leave_the_table_alone c s a d1 d2 :
  let run1 := pydamage_analyze c s (with_decimals a d1) in
  let run2 := pydamage_analyze c s (with_decimals a d2) in
  (forall df1 df2, run1.2 = Return df1 -> run2.2 = Return df2 -> df1 = df2)
  /\ List.filter (fun e => negb (is_csv e)) run1.1
     = List.filter (fun e => negb (is_csv e)) run2.1.
Proof.
  cbv zeta. rewrite !pydamage_analyze_table, !table_of_decimals.
  destruct (table_of c s a) as [t [df| |]]; cbn [bind fst snd]; [|done..].
  rewrite !export_eq. cbn [outdir decimals with_decimals fst snd].
  split.
  - intros df1 df2.
    destruct (df_to_csv c df (outdir a) d1), (df_to_csv c df (outdir a) d2);
      congruence.
  - by rewrite !List.filter_app.
Qed.

(** ** C3: falsy Fitter results *)

(** C3: in per-reference mode the list handed to
    [utils.pandas_processing] is the list of Fitter results in reference
    order with the falsy ones taken out; nothing falsy is in it.  The
    table a run returns is the join of the frames built from that list
    and from nothing else, so its labels are labels of the Fitter frame;
    and when that frame is keyed by the references of the results it was
    built from, a reference whose result is falsy has no row in the
    returned table. *)
Theorem falsy_fits_are_left_out c s a rd w :
  group a = false ->
  EPandasProcessing rd w ∈ (pydamage_analyze c s a).1 ->
  exists refs mode outs,
    prepare_bam c (bam a) = inr (refs, mode)
    /\ Forall2
         (fun r v =>
            test_damage c (Some r) (bam a) mode (wlen a) (show_al a)
              (process a) (verbose a) = inr v) refs outs
    /\ rd = List.filter truthy outs
    /\ Forall (fun v => truthy v = true) rd
    /\ w = wlen a
    /\ (forall df,
          (pydamage_analyze c s a).2 = Return df ->
          exists R prep L,
            pandas_processing c rd w = inr R
            /\ prepare_data c R = inr prep
            /\ glm_predict c prep (glm_model_params c) = inr L
            /\ df = merge L R
            /\ (forall k, k ∈ index df -> k ∈ index R)
            /\ (keyed_by_reference rd R ->
                Forall2 names_its_reference refs outs ->
                forall r v,
                  test_damage c (Some r) (bam a) mode (wlen a) (show_al a)
                    (process a) (verbose a) = inr v ->
                  truthy v = false ->
                  r ∉ index df)).
Proof.
  intros Hg.
  all_cases c s a; try congruence; intros H; trace_inv H; simplify_eq;
    destruct rm as [refs mode]; exists refs, mode, res;
    (split; [done|]); (split; [done|]); (split; [done|]);
    (split; [apply filter_truthy_Forall|]); (split; [done|]);
    intros df Hdf; try discriminate Hdf; injection Hdf as <-;
    eexists _, _, _;
    (split; [eassumption|]); (split; [eassumption|]);
    (split; [eassumption|]); (split; [done|]);
    (split; [intros k Hk; by apply merge_index_elem in Hk as [_ ?]|]);
    intros Hkeyed Hnames r v Hr Hv Hin;
    apply merge_index_elem in Hin as [_ Hin];
    by apply (falsy_reference_has_no_row _ _ _ _ r v Hres Hnames Hkeyed Hr Hv).
Qed.

(** C3, witness: contigB comes back as [None]; it is not in the list and
    has no row in the returned table. *)
Lemma falsy_fits_are_left_out_witness :
  group Sample.args = false
  /\ EPandasProcessing [Sample.fitA; Sample.fitC] 30
       ∈ (pydamage_analyze Sample.env Sample.shuffled Sample.args).1
  /\ (pydamage_analyze Sample.env Sample.shuffled Sample.args).2
     = Return Sample.joined
  /\ keyed_by_reference [Sample.fitA; Sample.fitC] Sample.fitter_frame
  /\ Forall2 names_its_reference Sample.refs
       [Sample.fitA; PyNone; Sample.fitC]
  /\ test_damage Sample.env (Some "contigB") (bam Sample.args) "rb"
       (wlen Sample.args) (show_al Sample.args) (process Sample.args)
       (verbose Sample.args) = inr PyNone
  /\ "contigB" ∉ index Sample.joined.
Proof.
  assert (H : EPandasProcessing [Sample.fitA; Sample.fitC] 30
                ∈ (pydamage_analyze Sample.env Sample.shuffled Sample.args).1)
    by trace_elem_compute.
  assert (Hret : (pydamage_analyze Sample.env Sample.shuffled Sample.args).2
                 = Return Sample.joined) by (vm_compute; reflexivity).
  assert (Hkeyed : keyed_by_reference [Sample.fitA; Sample.fitC]
                     Sample.fitter_frame).
  { intros k. split.
    - intros Hk. apply list_elem_of_In in Hk. cbn in Hk.
      destruct Hk as [<-|[<-|[]]].
      + exists Sample.fitA. split; [left|reflexivity].
      + exists Sample.fitC. split; [right; left|reflexivity].
    - intros (v & Hv & Hk). apply list_elem_of_In in Hv. cbn in Hv.
      destruct Hv as [<-|[<-|[]]]; injection Hk as <-;
        apply list_elem_of_In; cbn; tauto. }
  assert (Hnames : Forall2 names_its_reference Sample.refs
                     [Sample.fitA; PyNone; Sample.fitC]).
  { repeat constructor; intros Ht; try discriminate Ht; reflexivity. }
  split; [reflexivity|]. split; [exact H|]. split; [exact Hret|].
  split; [exact Hkeyed|]. split; [exact Hnames|]. split; [reflexivity|].
  destruct (falsy_fits_are_left_out Sample.env Sample.shuffled Sample.args
              _ _ eq_refl H)
    as (refs & mode & outs & Hb & Hf & Hrd & _ & _ & Htab).
  injection Hb as <- <-.
  assert (Houts : [Sample.fitA; PyNone; Sample.fitC] = outs).
  { refine (Forall2_same_results _ _ _ _ _ Hf). repeat constructor. }
  destruct Houts.
  destruct (Htab _ Hret) as (R & prep & L & HR & _ & _ & _ & _ & Habsent).
  injection HR as <-.
  exact (Habsent Hkeyed Hnames "contigB" PyNone eq_refl eq_refl).
Defined.

(** ** C4: no usable result at all *)

(** When every reference of a non-empty list comes back falsy, the driver
    warns once and builds the table from the empty list. *)
Lemma empty_result_list_warns_once c s a refs mode :
  group a = false ->
  makedir c (outdir a) None (Some (force a)) = inr tt ->
  prepare_bam c (bam a) = inr (refs, mode) ->
  1 <= pool_size a refs ->
  Forall (fun r => exists v,
            test_damage c (Some r) (bam a) mode (wlen a) (show_al a)
              (process a) (verbose a) = inr v
            /\ truthy v = false) refs ->
  count_if is_warn (pydamage_analyze c s a).1 = 1%nat
  /\ EPandasProcessing [] (wlen a) ∈ (pydamage_analyze c s a).1.
Proof.
  intros Hg Hm Hb Hproc Hall.
  all_cases c s a; try congruence; simplify_eq;
    try (apply Z.ltb_lt in Hpool; cbn [fst] in Hpool; lia);
    try (destruct Hres as (r & Hr & He);
         apply (proj1 (Forall_forall _ _) Hall) in Hr as (v & Hv & _);
         cbn [snd] in He; congruence);
    try (rewrite (all_falsy_filter _ _ _ Hres Hall) in *; cbn in Hlen;
         try discriminate Hlen;
         (split; [trace_count; lia|trace_elem])).
Qed.

(** C4 (where the code departs from the claim): in per-reference mode,
    when [utils.prepare_bam] finds no reference, the pool is asked for
    [min(0, process)] processes and [multiprocessing.Pool] raises: the run
    ends in a [ValueError] after the "Estimating" line, without a warning
    and without a table. *)
Theorem no_references_aborts c s a mode :
  group a = false ->
  makedir c (outdir a) None (Some (force a)) = inr tt ->
  prepare_bam c (bam a) = inr ([], mode) ->
  pydamage_analyze c s a =
  (banner c a ++ [EMakedir (outdir a) None (Some (force a));
                  EPrepareBam (bam a);
                  EPrint "Estimating and testing Damage"],
   Raise (ValueError "Number of processes must be at least 1"))
  /\ Forall (fun e => is_warn e = false) (pydamage_analyze c s a).1.
Proof.
  intros Hg Hm Hb.
  assert (Hrun : pydamage_analyze c s a =
    (banner c a ++ [EMakedir (outdir a) None (Some (force a));
                    EPrepareBam (bam a);
                    EPrint "Estimating and testing Damage"],
     Raise (ValueError "Number of processes must be at least 1"))).
  { rewrite run_eq, setup_eq, Hm, Hb. cbn [fst snd].
    destruct (estimate_per_reference c s a ([], mode) Hg)
      as (refs' & _ & _ & ->).
    assert (Hp : (pool_size a ([], mode).1 <? 1) = true).
    { apply Z.ltb_lt. unfold pool_size. simpl. lia. }
    rewrite Hp. cbn [fst snd abort]. by rewrite <- app_assoc. }
  split; [done|]. rewrite Hrun. cbn [fst]. trace_forall.
Qed.

(** C4, witness: the sample collaborators on a file without references. *)
Lemma no_references_aborts_witness :
  group Sample.args = false
  /\ makedir Sample.env_no_refs (outdir Sample.args) None
       (Some (force Sample.args)) = inr tt
  /\ prepare_bam Sample.env_no_refs (bam Sample.args) = inr ([], "rb")
  /\ (pydamage_analyze Sample.env_no_refs Sample.fifo Sample.args).2
     = Raise (ValueError "Number of processes must be at least 1").
Proof.
  split; [reflexivity|]. split; [reflexivity|]. split; [reflexivity|].
  exact (f_equal snd
           (proj1 (no_references_aborts Sample.env_no_refs Sample.fifo
                     Sample.args "rb" eq_refl eq_refl eq_refl))).
Defined.

(** ** C5: the size of the pool *)

(** C5: in per-reference mode every pool the run opens has
    [min(len(refs), process)] processes; when that number is at least one
    and the output directory could be made, such a pool is opened and the
    Fitter invocations happen inside it: at most one per reference, and
    one per reference when no invocation raises. *)
Theorem fan_out_pool_size c s a refs mode :
  group a = false ->
  prepare_bam c (bam a) = inr (refs, mode) ->
  let tr := (pydamage_analyze c s a).1 in
  let proc := Z.min (Z.of_nat (length refs)) (process a) in
  (forall n, EPoolEnter n ∈ tr -> n = proc)
  /\ (makedir c (outdir a) None (Some (force a)) = inr tt ->
      1 <= proc ->
      exists pre refs' post,
        refs' ⊆+ refs
        /\ (Forall (fun r => exists v,
                      test_damage c (Some r) (bam a) mode (wlen a)
                        (show_al a) (process a) (verbose a) = inr v) refs ->
            refs' ≡ₚ refs)
        /\ tr = pre ++ EPoolEnter proc :: ETqdm (length refs)
                 :: ((fun r => fit_call a mode (Some r)) <$> refs')
                 ++ EPoolExit :: post
        /\ Forall (fun e => is_pool e = false) pre
        /\ Forall (fun e => is_fit e = false) (pre ++ post)).
Proof.
  intros Hg Hb. cbv zeta. split.
  - intros n. all_cases c s a; try congruence; intros H; trace_inv H;
      by simplify_eq.
  - intros Hm Hproc.
    all_cases c s a; try congruence; simplify_eq;
      try (apply Z.ltb_lt in Hpool; unfold pool_size in Hpool; simpl in Hpool;
           lia);
      exists (banner c a ++ [EMakedir (outdir a) None (Some (force a));
                              EPrepareBam (bam a);
                              EPrint "Estimating and testing Damage"]);
      exists refs'; eexists; (split; [done|]);
      (split;
       [intros Hall; try done;
        destruct Hres as (x & Hx & He);
        apply (proj1 (Forall_forall _ _) Hall) in Hx as [v Hv];
        cbn [snd] in He; congruence|]);
      (split; [trace_norm; reflexivity|]); split; trace_forall.
Qed.

(** C5, witness: three references and [process=2]. *)
Lemma fan_out_pool_size_witness :
  group Sample.args_plots = false
  /\ prepare_bam Sample.env (bam Sample.args_plots) = inr (Sample.refs, "rb")
  /\ forall n,
       EPoolEnter n
         ∈ (pydamage_analyze Sample.env Sample.shuffled Sample.args_plots).1 ->
       n = Z.min 3 2.
Proof.
  split; [reflexivity|]. split; [reflexivity|].
  exact (proj1 (fan_out_pool_size Sample.env Sample.shuffled Sample.args_plots
                  Sample.refs "rb" eq_refl eq_refl)).
Defined.

(** ** C6: grouped mode *)

(** C6: in grouped mode every Fitter invocation has [ref=None]; there is
    at most one, and exactly one as soon as the set-up went through; it is
    made on the caller's whole alignment file before any pool exists; and
    the reads of an invocation with [ref=None] include the union of the
    reads of the per-reference invocations. *)
Theorem grouped_mode_single_fit c s a :
  group a = true ->
  let tr := (pydamage_analyze c s a).1 in
  (forall e, e ∈ tr -> is_fit e = true -> exists mode, e = fit_call a mode None)
  /\ (count_if is_fit tr <= 1)%nat
  /\ (forall rm,
        makedir c (outdir a) None (Some (force a)) = inr tt ->
        prepare_bam c (bam a) = inr rm ->
        exists pre post,
          tr = pre ++ fit_call a rm.2 None :: post
          /\ Forall (fun e => is_fit e = false) (pre ++ post)
          /\ Forall (fun e => is_pool e = false) pre)
  /\ (forall file (refs : list string) rd,
        (exists ref, ref ∈ refs /\ rd ∈ reads_used file (Some ref)) ->
        rd ∈ reads_used file None).
Proof.
  intros Hg. cbv zeta. split; [|split; [|split]].
  - intros e. all_cases c s a; try congruence; intros H Hf; trace_inv H;
      subst; try discriminate Hf; by eexists.
  - all_cases c s a; try congruence; trace_count; lia.
  - intros rm0 Hm Hb.
    all_cases c s a; try congruence; simplify_eq;
      exists (banner c a ++ [EMakedir (outdir a) None (Some (force a));
                              EPrepareBam (bam a);
                              EPrint "Estimating and testing Damage"]);
      eexists; (split; [trace_norm; reflexivity|]); split; trace_forall.
  - intros file refs rd (ref & _ & Hrd). simpl in *.
    by apply list_elem_of_filter in Hrd as [_ ?].
Qed.

(** C6, witness: the grouped sample run. *)
Lemma grouped_mode_single_fit_witness :
  group Sample.args_grouped = true
  /\ exists pre post,
       (pydamage_analyze Sample.env Sample.shuffled Sample.args_grouped).1
       = pre ++ fit_call Sample.args_grouped "rb" None :: post
       /\ Forall (fun e => is_fit e = false) (pre ++ post)
       /\ Forall (fun e => is_pool e = false) pre.
Proof.
  split; [reflexivity|].
  exact (proj1 (proj2 (proj2
           (grouped_mode_single_fit Sample.env Sample.shuffled
              Sample.args_grouped eq_refl)))
           (Sample.refs, "rb") eq_refl eq_refl).
Defined.

(** ** C7: the join *)

(** C7, counterexample: the predictor frame has one row, the Fitter frame
    two; the driver returns all the same, and contigC is gone. *)
Lemma join_drops_rows_without_error :
  EMerge Sample.predictor_frame_dropping Sample.fitter_frame
    ∈ (pydamage_analyze Sample.env_dropping Sample.fifo Sample.args).1
  /\ length (rows Sample.predictor_frame_dropping) = 1%nat
  /\ length (rows Sample.fitter_frame) = 2%nat
  /\ (pydamage_analyze Sample.env_dropping Sample.fifo Sample.args).2
     = Return Sample.joined_dropping
  /\ "contigC" ∈ index Sample.fitter_frame
  /\ "contigC" ∉ index Sample.joined_dropping.
Proof.
  split; [trace_elem_compute|]. split; [reflexivity|]. split; [reflexivity|].
  split; [vm_compute; reflexivity|]. split; [trace_elem_compute|].
  intros H. apply list_elem_of_In in H. vm_compute in H.
  destruct H as [H|[]]. discriminate H.
Qed.

(** C7 (as amended): the table a run returns is the inner join, on the
    index, of the Accuracy Predictor frame with the Fitter frame the
    predictor was computed from: a row for every pair of rows with the
    same label, so a label is in the table exactly when it is in both
    frames.  When the two frames carry the same labels, each once, the
    join is 1:1 and loses nothing: same labels, same number of rows as
    either frame.  The driver does not compare the frames: once they are
    joined, whatever their rows, the run ends as the writer ends. *)
Theorem final_table_is_the_inner_join c s a :
  let run := pydamage_analyze c s a in
  (forall df,
     run.2 = Return df ->
     exists rd R prep L,
       EMerge L R ∈ run.1
       /\ pandas_processing c rd (wlen a) = inr R
       /\ prepare_data c R = inr prep
       /\ glm_predict c prep (glm_model_params c) = inr L
       /\ df = merge L R
       /\ (forall k x,
             (k, x) ∈ rows df <->
             exists l r, x = l ++ r /\ (k, l) ∈ rows L /\ (k, r) ∈ rows R)
       /\ (forall k, k ∈ index df <-> k ∈ index L /\ k ∈ index R)
       /\ (NoDup (index L) -> NoDup (index R) -> index L ≡ₚ index R ->
           index df = index L
           /\ length (rows df) = length (rows L)
           /\ length (rows df) = length (rows R)))
  /\ (forall L R,
        EMerge L R ∈ run.1 ->
        match df_to_csv c (merge L R) (outdir a) (decimals a) with
        | inr _ => run.2 = Return (merge L R)
        | inl e => run.2 = Raise e
        end).
Proof.
  cbv zeta. split.
  - intros df.
    all_cases c s a; try done; intros [= <-];
      eexists _, _, _, _;
      (split; [trace_elem|]);
      (split; [eassumption|]); (split; [eassumption|]);
      (split; [eassumption|]);
      (split; [done|]);
      (split; [apply merge_rows_elem|]);
      (split; [apply merge_index_elem|]);
      intros HL HR Hsame;
      (assert (Hi : index (merge df_glm df_pydamage) = index df_glm)
         by (apply merge_index_same; [done|]; intros k; by rewrite Hsame));
      (split; [done|]);
      rewrite <- (length_fmap fst (rows (merge _ _)));
      fold (index (merge df_glm df_pydamage)); rewrite Hi; unfold index;
      rewrite length_fmap; (split; [done|]);
      rewrite <- (length_fmap fst (rows df_glm)),
        <- (length_fmap fst (rows df_pydamage));
      fold (index df_glm) (index df_pydamage); by rewrite Hsame.
  - intros L R.
    all_cases c s a; intros H; trace_inv H; simplify_eq; by rewrite Hcsv.
Qed.

(** C7, witness: the sample run, where both frames have two rows. *)
Lemma final_table_is_the_inner_join_witness :
  (pydamage_analyze Sample.env Sample.fifo Sample.args).2
  = Return Sample.joined
  /\ exists rd R prep L,
       EMerge L R ∈ (pydamage_analyze Sample.env Sample.fifo Sample.args).1
       /\ pandas_processing Sample.env rd (wlen Sample.args) = inr R
       /\ prepare_data Sample.env R = inr prep
       /\ glm_predict Sample.env prep (glm_model_params Sample.env) = inr L
       /\ Sample.joined = merge L R
       /\ (forall k x,
             (k, x) ∈ rows Sample.joined <->
             exists l r, x = l ++ r /\ (k, l) ∈ rows L /\ (k, r) ∈ rows R)
       /\ (forall k, k ∈ index Sample.joined <-> k ∈ index L /\ k ∈ index R)
       /\ (NoDup (index L) -> NoDup (index R) -> index L ≡ₚ index R ->
           index Sample.joined = index L
           /\ length (rows Sample.joined) = length (rows L)
           /\ length (rows Sample.joined) = length (rows R)).
Proof.
  assert (H : (pydamage_analyze Sample.env Sample.fifo Sample.args).2
              = Return Sample.joined) by (vm_compute; reflexivity).
  split; [exact H|].
  exact (proj1 (final_table_is_the_inner_join Sample.env Sample.fifo
                  Sample.args) Sample.joined H).
Defined.

(** ** C8: two runs on the same input *)

(** C8: two runs on the same arguments end the same way (the same table,
    or the same exception) as soon as both read the same package constants
    and every collaborator call the first run made gets the same answer in
    the second, whatever the workers of the pools do in either run; when
    they return they have logged the same events up to the order of the
    calls inside a pool; a run never blocks; and with the very same
    collaborators the way a run ends does not depend on the workers. *)
Theorem same_input_same_table c1 c2 a s1 s2 :
  version c1 = version c2 ->
  glm_model_params c1 = glm_model_params c2 ->
  Forall (same_answer c1 c2) (pydamage_analyze c1 s1 a).1 ->
  (pydamage_analyze c1 s1 a).2 = (pydamage_analyze c2 s2 a).2
  /\ (forall df,
        (pydamage_analyze c1 s1 a).2 = Return df ->
        (pydamage_analyze c1 s1 a).1 ≡ₚ (pydamage_analyze c2 s2 a).1)
  /\ (pydamage_analyze c1 s1 a).2 <> Hang
  /\ (forall s s',
        (pydamage_analyze c1 s a).2 = (pydamage_analyze c1 s' a).2).
Proof.
  intros Hv Hp Hall.
  destruct (run_agree c1 c2 s1 s2 a Hv Hp Hall) as [Ho Ht]. clear Hall.
  split; [done|]. split; [exact Ht|]. split.
  - all_cases c1 s1 a; done.
  - intros s s'. symmetry.
    apply (run_agree c1 c1 s s' a eq_refl eq_refl).
    apply Forall_forall. intros e _. by destruct e.
Qed.

(** C8, witness: two runs on the sample file, with workers that finish in
    different orders and collaborators that differ only on what neither
    run asks for. *)
Lemma same_input_same_table_witness :
  version Sample.env = version Sample.env_again
  /\ glm_model_params Sample.env = glm_model_params Sample.env_again
  /\ Forall (same_answer Sample.env Sample.env_again)
       (pydamage_analyze Sample.env Sample.fifo Sample.args_plots).1
  /\ (pydamage_analyze Sample.env Sample.fifo Sample.args_plots).2
     = (pydamage_analyze Sample.env_again Sample.shuffled Sample.args_plots).2
  /\ (pydamage_analyze Sample.env_again Sample.shuffled Sample.args_plots).2
     = Return Sample.joined.
Proof.
  assert (Hall : Forall (same_answer Sample.env Sample.env_again)
                   (pydamage_analyze Sample.env Sample.fifo
                      Sample.args_plots).1).
  { vm_compute. repeat constructor. }
  split; [reflexivity|]. split; [reflexivity|]. split; [exact Hall|].
  split.
  - exact (proj1 (same_input_same_table Sample.env Sample.env_again
                    Sample.args_plots Sample.fifo Sample.shuffled
                    eq_refl eq_refl Hall)).
  - vm_compute. reflexivity.
Defined.

(** ** C9: the Accuracy Predictor after the fits *)

(** C9: [prepare_data] and [glm_predict] are called at most once in any
    run and exactly once in a run that returns; when either is called no
    pool is open, the frame it works on comes from
    [utils.pandas_processing] over the collected list, [glm_predict] gets
    [glm_model_params], no Fitter invocation and no pool comes after it,
    and in per-reference mode the Fitter invocations before it are one per
    reference. *)
Theorem accuracy_predictor_once_after_fits c s a :
  let run := pydamage_analyze c s a in
  ((count_if is_prepare_data run.1 <= 1)%nat
   /\ (count_if is_glm_predict run.1 <= 1)%nat)
  /\ (forall df, run.2 = Return df ->
        count_if is_prepare_data run.1 = 1%nat
        /\ count_if is_glm_predict run.1 = 1%nat)
  /\ (forall pre e post,
        run.1 = pre ++ e :: post -> is_predictor e = true ->
        open_pools pre = 0%nat
        /\ Forall (fun e' => is_fit e' = false /\ is_pool e' = false) post
        /\ (exists rd d,
              EPandasProcessing rd (wlen a) ∈ pre
              /\ pandas_processing c rd (wlen a) = inr d
              /\ (e = EPrepareData d
                  \/ exists prep,
                       prepare_data c d = inr prep
                       /\ e = EGlmPredict prep (glm_model_params c)))
        /\ (group a = false ->
            exists refs mode,
              prepare_bam c (bam a) = inr (refs, mode)
              /\ List.filter is_fit pre
                  ≡ₚ (fun r => fit_call a mode (Some r)) <$> refs)).
Proof.
  cbv zeta. split; [|split].
  - split; all_cases c s a; trace_count; lia.
  - intros df. all_cases c s a; try done; intros _; split; trace_count; lia.
  - intros pre e post.
    all_cases c s a; intros H He; trace_cut is_predictor H He.
    all: split; [trace_pools; done|].
    all: split; [trace_forall|].
    all: split.
    all: try (eexists _, _; split; [trace_elem|]; split; [eassumption|]; eauto; fail).
    all: intros Hg; try congruence;
        destruct rm as [refs mode]; exists refs, mode; (split; [done|]);
        trace_filter; rewrite ?app_nil_r; by apply fmap_Permutation.
Qed.

(** ** C10: the grouped list *)

(** C10: in grouped mode no run emits the warning, the list handed to
    [utils.pandas_processing] always has one entry, and whatever the
    grouped fit returns, falsy or not, the count line reads "1 contig(s)"
    and that one result is the list. *)
Theorem grouped_list_has_one_entry c s a :
  group a = true ->
  let tr := (pydamage_analyze c s a).1 in
  Forall (fun e => is_warn e = false) tr
  /\ (forall rd w, EPandasProcessing rd w ∈ tr -> length rd = 1%nat)
  /\ (forall rm v,
        makedir c (outdir a) None (Some (force a)) = inr tt ->
        prepare_bam c (bam a) = inr rm ->
        test_damage c None (bam a) rm.2 (wlen a) (show_al a) (process a)
          (verbose a) = inr v ->
        EPrint "1 contig(s) successfully analyzed by Pydamage" ∈ tr
        /\ (plot a = false -> EPandasProcessing [v] (wlen a) ∈ tr)).
Proof.
  intros Hg. cbv zeta. split; [|split].
  - all_cases c s a; try congruence; trace_forall.
  - intros rd w.
    all_cases c s a; try congruence; intros H; trace_inv H; by simplify_eq.
  - intros rm0 v0 Hm Hb Hf.
    all_cases c s a; try congruence; simplify_eq;
      assert (v = v0) as -> by congruence;
      rewrite count_line_one;
      (split; [|intros ?; try congruence]); trace_elem.
Qed.

(** C10, witness: the grouped sample run. *)
Lemma grouped_list_has_one_entry_witness :
  group Sample.args_grouped = true
  /\ Forall (fun e => is_warn e = false)
       (pydamage_analyze Sample.env Sample.fifo Sample.args_grouped).1
  /\ forall rd w,
       EPandasProcessing rd w
         ∈ (pydamage_analyze Sample.env Sample.fifo Sample.args_grouped).1 ->
       length rd = 1%nat.
Proof.
  split; [reflexivity|].
  pose proof (grouped_list_has_one_entry Sample.env Sample.fifo
                Sample.args_grouped eq_refl) as H.
  exact (conj (proj1 H) (proj1 (proj2 H))).
Defined.

(** * More of the driver *)

(** ** Tools *)

(** The iterator stops at the first task, in submission order, that
    raised. *)
Lemma gather_first_failure {A B} (g : A -> exn + B) l1 x l2 e :
  Forall (fun y => exists v, g y = inr v) l1 -> g x = inl e ->
  gather ((fun y => match g y with inl e => Raise e | inr v => Return v end)
            <$> (l1 ++ x :: l2)) = Raise e.
Proof.
  intros Hl Hx. induction Hl as [|y l1 [v Hy] _ IH]; simpl.
  - by rewrite Hx.
  - rewrite Hy. fold (@fmap list _ A). by rewrite IH.
Qed.

Lemma length_zero_nil {A} (l : list A) : (length l =? 0)%nat = true -> l = [].
Proof. by destruct l. Qed.

(** Cut an explicit trace in front of the events the goal names. *)
Lemma split_here {A} (r : list A) : r = [] ++ r.
Proof. done. Qed.

Lemma split_cons {A} (x : A) l pre r :
  l = pre ++ r -> x :: l = (x :: pre) ++ r.
Proof. by intros ->. Qed.

Lemma split_app {A} (t l pre r : list A) :
  l = pre ++ r -> t ++ l = (t ++ pre) ++ r.
Proof. intros ->. by rewrite app_assoc. Qed.

Ltac trace_split :=
  repeat
    lazymatch goal with
    | |- _ :: _ = _ ++ _ => first [apply split_here | apply split_cons]
    | |- _ ++ _ = _ ++ _ => first [apply split_here | apply split_app]
    end.

(** Membership, also through a permuted list of calls. *)
Ltac trace_mem :=
  lazymatch goal with
  | |- _ ∈ _ :: _ =>
      first [apply list_elem_of_here | apply list_elem_of_further; trace_mem]
  | |- _ ∈ _ ++ _ =>
      apply elem_of_app; first [left; trace_mem | right; trace_mem]
  | |- _ ∈ _ <$> _ =>
      apply list_elem_of_fmap; eexists; split; [reflexivity|]; eassumption
  end.

Ltac trace_select p :=
  repeat first
    [ rewrite List.filter_app
    | rewrite (lfilter_none p (banner _ _)) by (apply banner_Forall; done)
    | rewrite (lfilter_none p (_ <$> _))
        by (apply Forall_fmap, Forall_true; done)
    | rewrite (lfilter_all p (_ <$> _))
        by (apply Forall_fmap, Forall_true; done)
    | progress cbn [List.filter app p fit_call count_line empty_warning] ].

(** ** X1: no plot without a request *)

(** X1: when [plot] is false no plot is drawn, the only directory made is
    the output directory (with [force] as the caller gave it), and in
    grouped mode no pool is opened at all. *)
Theorem no_plot_without_request c s a :
  plot a = false ->
  let tr := (pydamage_analyze c s a).1 in
  Forall (fun e => is_damageplot e = false) tr
  /\ (forall p cf f,
        EMakedir p cf f ∈ tr -> p = outdir a /\ cf = None /\ f = Some (force a))
  /\ (group a = true -> Forall (fun e => is_pool e = false) tr).
Proof.
  intros Hp. cbv zeta. split; [|split].
  - all_cases c s a; try congruence; trace_forall.
  - intros p cf f.
    all_cases c s a; try congruence; intros H; trace_inv H; by simplify_eq.
  - intros Hg. all_cases c s a; try congruence; trace_forall.
Qed.

(** X1, witness: the sample run with the default arguments. *)
Lemma no_plot_without_request_witness :
  plot Sample.args = false
  /\ Forall (fun e => is_damageplot e = false)
       (pydamage_analyze Sample.env Sample.shuffled Sample.args).1.
Proof.
  split; [reflexivity|].
  exact (proj1 (no_plot_without_request Sample.env Sample.shuffled Sample.args
                  eq_refl)).
Defined.

(** ** X2: every collected result is plotted once *)

(** X2: with [plot] set, a run that gets as far as building the table from
    a non-empty list has first made [outdir/plots], with [confirm=False],
    then opened a pool and drawn in it every collected result exactly
    once, in [outdir/plots] with the caller's [wlen], then closed the pool
    and only then called [utils.pandas_processing]; no plot is drawn
    before or after, and every one of these plots returned. *)
Theorem plots_cover_the_collected_list c s a rd w :
  plot a = true ->
  EPandasProcessing rd w ∈ (pydamage_analyze c s a).1 ->
  rd <> [] ->
  (exists done_,
     done_ ≡ₚ rd
     /\ List.filter is_damageplot (pydamage_analyze c s a).1
        = (fun res => EDamageplot res (outdir a +:+ "/plots") (wlen a))
            <$> done_
     /\ exists pre n post,
          (pydamage_analyze c s a).1
          = pre ++ EMakedir (outdir a +:+ "/plots") (Some false) None
              :: EPoolEnter n :: ETqdm (length rd)
              :: ((fun res =>
                     EDamageplot res (outdir a +:+ "/plots") (wlen a))
                    <$> done_)
              ++ EPoolExit :: EPandasProcessing rd w :: post
          /\ Forall (fun e => is_damageplot e = false) (pre ++ post))
  /\ Forall (fun res =>
               damageplot c res (outdir a +:+ "/plots") (wlen a) = inr tt) rd
  /\ makedir c (outdir a +:+ "/plots") (Some false) None = inr tt.
Proof.
  intros Hp.
  all_cases c s a; try congruence; intros H Hne; trace_inv H; simplify_eq;
    try (apply length_zero_nil in Hlen; congruence);
    (split; [exists filt'; split; [done|];
             split; [trace_select is_damageplot; by rewrite ?app_nil_r|];
             unfold plotdir; trace_norm;
             eexists _, _, _; split; [trace_split|];
             trace_forall|]);
    (split; [|done]);
    apply Forall_forall; intros x Hx;
    destruct (Forall2_returns _ _ _ x Hplots Hx) as [[] ?]; done.
Qed.

(** X2, witness: the sample run with plots. *)
Lemma plots_cover_the_collected_list_witness :
  plot Sample.args_plots = true
  /\ EPandasProcessing [Sample.fitA; Sample.fitC] 30
       ∈ (pydamage_analyze Sample.env Sample.shuffled Sample.args_plots).1
  /\ [Sample.fitA; Sample.fitC] <> []
  /\ exists done_,
       done_ ≡ₚ [Sample.fitA; Sample.fitC]
       /\ List.filter is_damageplot
            (pydamage_analyze Sample.env Sample.shuffled Sample.args_plots).1
          = (fun res => EDamageplot res "out/plots" 30) <$> done_
       /\ exists pre n post,
            (pydamage_analyze Sample.env Sample.shuffled Sample.args_plots).1
            = pre ++ EMakedir "out/plots" (Some false) None
                :: EPoolEnter n :: ETqdm 2
                :: ((fun res => EDamageplot res "out/plots" 30) <$> done_)
                ++ EPoolExit
                :: EPandasProcessing [Sample.fitA; Sample.fitC] 30 :: post
            /\ Forall (fun e => is_damageplot e = false) (pre ++ post).
Proof.
  assert (H : EPandasProcessing [Sample.fitA; Sample.fitC] 30
                ∈ (pydamage_analyze Sample.env Sample.shuffled
                     Sample.args_plots).1)
    by trace_elem_compute.
  assert (Hne : [Sample.fitA; Sample.fitC] <> []) by discriminate.
  split; [reflexivity|]. split; [exact H|]. split; [exact Hne|].
  exact (proj1 (plots_cover_the_collected_list Sample.env Sample.shuffled
                  Sample.args_plots _ _ eq_refl H Hne)).
Defined.

(** ** X3: the warning and the empty list *)

(** X3: the warning is emitted at most once, always with the same message
    and category, only in per-reference mode and never together with a
    plot; it comes right after the count line, which then reads
    "0 contig(s)", and right before the call of [utils.pandas_processing]
    on the empty list; a run warns exactly when it makes that call. *)
Theorem warning_exactly_on_empty_list c s a :
  let tr := (pydamage_analyze c s a).1 in
  (count_if is_warn tr <= 1)%nat
  /\ (forall m cat,
        EWarn m cat ∈ tr ->
        m = "No alignments were found, check your alignment file"
        /\ cat = "PyDamageWarning"
        /\ group a = false
        /\ Forall (fun e => is_damageplot e = false) tr
        /\ EPrint "0 contig(s) successfully analyzed by Pydamage" ∈ tr
        /\ exists pre post,
             tr = pre
                  ++ EPrint "0 contig(s) successfully analyzed by Pydamage"
                  :: EWarn m cat :: EPandasProcessing [] (wlen a) :: post
             /\ Forall (fun e => is_warn e = false) (pre ++ post))
  /\ ((exists m cat, EWarn m cat ∈ tr)
      <-> EPandasProcessing [] (wlen a) ∈ tr).
Proof.
  cbv zeta. split; [|split].
  - all_cases c s a; trace_count; lia.
  - intros m cat.
    all_cases c s a; intros H; trace_inv H; unfold empty_warning in *;
      simplify_eq;
      apply length_zero_nil in Hlen; rewrite Hlen;
      (split; [done|]); (split; [done|]); (split; [done|]);
      (split; [trace_forall|]);
      change (count_line []) with
        (EPrint "0 contig(s) successfully analyzed by Pydamage");
      (split; [trace_mem|]);
      trace_norm; eexists _, _; (split; [trace_split|]); trace_forall.
  - split.
    + intros (m & cat & H). revert H.
      all_cases c s a; intros H; trace_inv H; simplify_eq;
        apply length_zero_nil in Hlen; rewrite Hlen; trace_mem.
    + all_cases c s a; intros H; trace_inv H; simplify_eq;
        try match goal with
            | Hl : (length ?l =? 0)%nat = false, He : [] = ?l |- _ =>
                rewrite <- He in Hl; discriminate Hl
            end;
        eexists _, _; unfold empty_warning; trace_mem.
Qed.

(** ** X4: a failing fit *)

(** X4: in per-reference mode, when the Fitter raises for a reference and
    returned for every reference before it, the run raises that very
    exception; nothing after the fits happens (no warning, no plot, no
    table, no CSV) and the pool is closed. *)
Theorem first_failing_fit_aborts c s a mode l1 r l2 e :
  group a = false ->
  makedir c (outdir a) None (Some (force a)) = inr tt ->
  prepare_bam c (bam a) = inr (l1 ++ r :: l2, mode) ->
  1 <= process a ->
  Forall (fun r' => exists v,
            test_damage c (Some r') (bam a) mode (wlen a) (show_al a)
              (process a) (verbose a) = inr v) l1 ->
  test_damage c (Some r) (bam a) mode (wlen a) (show_al a) (process a)
    (verbose a) = inl e ->
  (pydamage_analyze c s a).2 = Raise e
  /\ Forall (fun ev => is_downstream ev = false) (pydamage_analyze c s a).1
  /\ open_pools (pydamage_analyze c s a).1 = 0%nat.
Proof.
  intros Hg Hm Hb Hp Hl Hr.
  pose proof (gather_first_failure
                (fun x => test_damage c (Some x) (bam a) mode (wlen a)
                            (show_al a) (process a) (verbose a))
                l1 r l2 e Hl Hr) as Hfirst.
  all_cases c s a; try congruence; simplify_eq;
    try (apply Z.ltb_lt in Hpool; unfold pool_size in Hpool;
         cbn [fst] in Hpool; rewrite length_app in Hpool; simpl in Hpool;
         lia);
    change (gather _) with
      (gather (fit_outcomes c a (l1 ++ r :: l2, mode))) in Hfirst;
    try congruence;
    assert (e0 = e) as -> by congruence;
    (split; [done|]); (split; [trace_forall|]); trace_pools; done.
Qed.

(** X4, witness: the Fitter raises on contigB. *)
Lemma first_failing_fit_aborts_witness :
  group Sample.args = false
  /\ prepare_bam Cases.env_fit_fails (bam Sample.args)
     = inr (["contigA"] ++ "contigB" :: ["contigC"], "rb")
  /\ 1 <= process Sample.args
  /\ (pydamage_analyze Cases.env_fit_fails Sample.shuffled Sample.args).2
     = Raise (Raised "KeyError").
Proof.
  split; [reflexivity|]. split; [reflexivity|]. split; [discriminate|].
  refine (proj1 (first_failing_fit_aborts Cases.env_fit_fails Sample.shuffled
                   Sample.args "rb" ["contigA"] "contigB" ["contigC"]
                   (Raised "KeyError") eq_refl eq_refl eq_refl _ _ eq_refl)).
  - discriminate.
  - constructor; [|constructor]. exists Sample.fitA. reflexivity.
Defined.

(** ** X5: fewer than one process *)

(** X5: in per-reference mode, whenever [min(len(refs), process)] is below
    one (no reference, or [process] zero or negative), the run stops after
    the "Estimating" line with the [ValueError] of the pool constructor:
    not one Fitter invocation is made. *)
Theorem too_few_processes_abort c s a refs mode :
  group a = false ->
  makedir c (outdir a) None (Some (force a)) = inr tt ->
  prepare_bam c (bam a) = inr (refs, mode) ->
  Z.min (Z.of_nat (length refs)) (process a) < 1 ->
  pydamage_analyze c s a =
  (banner c a ++ [EMakedir (outdir a) None (Some (force a));
                  EPrepareBam (bam a);
                  EPrint "Estimating and testing Damage"],
   Raise (ValueError "Number of processes must be at least 1")).
Proof.
  intros Hg Hm Hb Hp.
  rewrite run_eq, setup_eq, Hm, Hb. cbn [fst snd].
  destruct (estimate_per_reference c s a (refs, mode) Hg)
    as (refs' & _ & _ & ->).
  assert (Hlt : (pool_size a (refs, mode).1 <? 1) = true)
    by (by apply Z.ltb_lt).
  rewrite Hlt. cbn [fst snd abort]. by rewrite <- app_assoc.
Qed.

(** X5, witness: three references and [process=0]. *)
Lemma too_few_processes_abort_witness :
  group Cases.args_no_process = false
  /\ prepare_bam Sample.env (bam Cases.args_no_process)
     = inr (Sample.refs, "rb")
  /\ Z.min (Z.of_nat (length Sample.refs)) (process Cases.args_no_process) < 1
  /\ (pydamage_analyze Sample.env Sample.fifo Cases.args_no_process).2
     = Raise (ValueError "Number of processes must be at least 1").
Proof.
  split; [reflexivity|]. split; [reflexivity|]. split; [reflexivity|].
  exact (f_equal snd
           (too_few_processes_abort Sample.env Sample.fifo
              Cases.args_no_process Sample.refs "rb" eq_refl eq_refl eq_refl
              eq_refl)).
Defined.

(** ** X6: a returned table has been written *)

(** X6: a table is returned only after the writer returned on it: the
    call of [utils.df_to_csv] on the returned table, with the caller's
    [outdir] and [decimals], is the last event of the run and the only
    call of the writer. *)
Theorem returned_table_was_written c s a df :
  (pydamage_analyze c s a).2 = Return df ->
  (exists pre,
     (pydamage_analyze c s a).1
     = pre ++ [EDfToCsv df (outdir a) (decimals a)]
     /\ Forall (fun e => is_csv e = false) pre)
  /\ df_to_csv c df (outdir a) (decimals a) = inr tt.
Proof.
  all_cases c s a; try done; intros [= <-]; (split; [|done]);
    eexists; (split; [rewrite !app_assoc; reflexivity|]); trace_forall.
Qed.

(** X6, witness: the sample run. *)
Lemma returned_table_was_written_witness :
  (pydamage_analyze Sample.env Sample.fifo Sample.args).2
  = Return Sample.joined
  /\ df_to_csv Sample.env Sample.joined (outdir Sample.args)
       (decimals Sample.args) = inr tt.
Proof.
  assert (H : (pydamage_analyze Sample.env Sample.fifo Sample.args).2
              = Return Sample.joined) by (vm_compute; reflexivity).
  split; [exact H|].
  exact (proj2 (returned_table_was_written Sample.env Sample.fifo Sample.args
                  Sample.joined H)).
Defined.

(** ** X7: what a Fitter invocation is given *)

(** X7: every Fitter invocation gets the caller's [bam], [wlen],
    [show_al], [process] (the caller's count, not the pool size) and
    [verbose], and the mode [utils.prepare_bam] returned; in grouped mode
    its reference is [None], otherwise it is a reference of the file. *)
Theorem fits_get_the_callers_arguments c s a ref b m w sh p vb :
  ETestDamage ref b m w sh p vb ∈ (pydamage_analyze c s a).1 ->
  b = bam a /\ w = wlen a /\ sh = show_al a /\ p = process a /\ vb = verbose a
  /\ exists refs,
       prepare_bam c (bam a) = inr (refs, m)
       /\ if group a then ref = None
          else exists r, ref = Some r /\ r ∈ refs.
Proof.
  all_cases c s a; intros H; trace_inv H; unfold fit_call in *;
    destruct rm as [refs mode]; cbn [fst snd] in *;
    injection H as -> -> -> -> -> -> ->.
  all: do 5 (split; [done|]).
  all: match goal with
       | Hb : prepare_bam _ _ = inr (?l, _) |- _ => exists l
       end; (split; [done|]); try done.
  all: eexists; (split; [done|]).
  all: match goal with
       | Hs : ?l ⊆+ _, Hx : _ ∈ ?l |- _ => by eapply elem_of_submseteq
       end.
Qed.

(** X7, witness: the invocation on contigB with [process=2]. *)
Lemma fits_get_the_callers_arguments_witness :
  ETestDamage (Some "contigB") "sample.bam" "rb" 30 false 2 false
    ∈ (pydamage_analyze Sample.env Sample.shuffled Sample.args_plots).1
  /\ 2 = process Sample.args_plots
  /\ exists refs,
       prepare_bam Sample.env (bam Sample.args_plots) = inr (refs, "rb")
       /\ exists r, Some "contigB" = Some r /\ r ∈ refs.
Proof.
  assert (H : ETestDamage (Some "contigB") "sample.bam" "rb" 30 false 2 false
                ∈ (pydamage_analyze Sample.env Sample.shuffled
                     Sample.args_plots).1)
    by trace_elem_compute.
  split; [exact H|].
  pose proof (fits_get_the_callers_arguments Sample.env Sample.shuffled
                Sample.args_plots _ _ _ _ _ _ _ H) as T.
  exact (conj (proj1 (proj2 (proj2 (proj2 T))))
              (proj2 (proj2 (proj2 (proj2 (proj2 T)))))).
Defined.

(** ** X8: a per-reference run that goes through *)

(** X8: a per-reference run in which every collaborator returns (and
    there is at least one process) returns the join of the predictor frame
    with the Fitter frame built from the truthy results, with every pool
    closed. *)
Theorem per_reference_run_returns_the_join c s a refs mode outs R P L :
  group a = false ->
  makedir c (outdir a) None (Some (force a)) = inr tt ->
  prepare_bam c (bam a) = inr (refs, mode) ->
  1 <= Z.min (Z.of_nat (length refs)) (process a) ->
  Forall2 (fun r v =>
             test_damage c (Some r) (bam a) mode (wlen a) (show_al a)
               (process a) (verbose a) = inr v) refs outs ->
  (plot a = true -> List.filter truthy outs <> [] ->
   makedir c (outdir a +:+ "/plots") (Some false) None = inr tt
   /\ Forall (fun res =>
                damageplot c res (outdir a +:+ "/plots") (wlen a) = inr tt)
        (List.filter truthy outs)) ->
  pandas_processing c (List.filter truthy outs) (wlen a) = inr R ->
  prepare_data c R = inr P ->
  glm_predict c P (glm_model_params c) = inr L ->
  df_to_csv c (merge L R) (outdir a) (decimals a) = inr tt ->
  (pydamage_analyze c s a).2 = Return (merge L R)
  /\ open_pools (pydamage_analyze c s a).1 = 0%nat.
Proof.
  intros Hg Hm Hb Hp Hfits Hplotok HR HP HL Hw.
  all_cases c s a; try congruence; simplify_eq;
    try (apply Z.ltb_lt in Hpool; unfold pool_size in Hpool;
         cbn [fst] in Hpool; lia);
    try (apply Z.ltb_lt in Hpool'; unfold pool_size in Hpool';
         cbn [fst] in Hpool'; lia);
    try (destruct Hres as (x & Hx & He);
         destruct (Forall2_returns _ _ _ x Hfits Hx) as [? ?];
         cbn [snd] in He; congruence);
    cbn [fst snd] in Hres;
    pose proof (Forall2_same_results _ _ _ _ Hres Hfits) as ->;
    try (assert (Hne : List.filter truthy outs <> [])
           by (intros Hnil; rewrite Hnil in Hlen; discriminate Hlen);
         destruct (Hplotok eq_refl Hne) as [Hmk Hall];
         unfold plotdir in *; try congruence;
         try (destruct Hplots as (x & Hx & He);
              apply (proj1 (Forall_forall _ _) Hall) in Hx; congruence));
    try congruence;
    (split; [congruence|]); trace_pools; done.
Qed.

(** X8, witness: the sample run with plots. *)
Lemma per_reference_run_returns_the_join_witness :
  group Sample.args_plots = false
  /\ prepare_bam Sample.env (bam Sample.args_plots) = inr (Sample.refs, "rb")
  /\ 1 <= Z.min (Z.of_nat (length Sample.refs)) (process Sample.args_plots)
  /\ pandas_processing Sample.env
       (List.filter truthy [Sample.fitA; PyNone; Sample.fitC])
       (wlen Sample.args_plots) = inr Sample.fitter_frame
  /\ (pydamage_analyze Sample.env Sample.shuffled Sample.args_plots).2
     = Return (merge Sample.predictor_frame Sample.fitter_frame).
Proof.
  split; [reflexivity|]. split; [reflexivity|]. split; [discriminate|].
  split; [reflexivity|].
  refine (proj1 (per_reference_run_returns_the_join Sample.env Sample.shuffled
                   Sample.args_plots Sample.refs "rb"
                   [Sample.fitA; PyNone; Sample.fitC]
                   Sample.fitter_frame Sample.fitter_frame
                   Sample.predictor_frame
                   eq_refl eq_refl eq_refl _ _ _ eq_refl eq_refl eq_refl
                   eq_refl)).
  - discriminate.
  - repeat constructor.
  - intros _ _. split; [reflexivity|]. repeat constructor.
Defined.

(** ** X9: a grouped run that goes through *)

(** X9: a grouped run in which every collaborator returns returns the
    join of the frames built from the one grouped result, whatever its
    truth value; with [plot] set that result is drawn, unfiltered, and
    without it no pool is opened, so the number of references does not
    matter. *)
Theorem grouped_run_returns_the_join c s a refs mode gv R P L :
  group a = true ->
  makedir c (outdir a) None (Some (force a)) = inr tt ->
  prepare_bam c (bam a) = inr (refs, mode) ->
  test_damage c None (bam a) mode (wlen a) (show_al a) (process a)
    (verbose a) = inr gv ->
  (plot a = true ->
   makedir c (outdir a +:+ "/plots") (Some false) None = inr tt
   /\ 1 <= Z.min (Z.of_nat (length refs)) (process a)
   /\ damageplot c gv (outdir a +:+ "/plots") (wlen a) = inr tt) ->
  pandas_processing c [gv] (wlen a) = inr R ->
  prepare_data c R = inr P ->
  glm_predict c P (glm_model_params c) = inr L ->
  df_to_csv c (merge L R) (outdir a) (decimals a) = inr tt ->
  (pydamage_analyze c s a).2 = Return (merge L R)
  /\ (plot a = true ->
      EDamageplot gv (outdir a +:+ "/plots") (wlen a)
        ∈ (pydamage_analyze c s a).1)
  /\ (plot a = false ->
      Forall (fun e => is_pool e = false) (pydamage_analyze c s a).1).
Proof.
  intros Hg Hm Hb Hf Hplotok HR HP HL Hw.
  all_cases c s a; try congruence; simplify_eq; cbn [fst snd] in *;
    try congruence;
    assert (v = gv) as -> by congruence;
    try (destruct (Hplotok eq_refl) as (Hmk & Hn & Hd);
         unfold plotdir in *; try congruence;
         try (apply Z.ltb_lt in Hpool'; unfold pool_size in Hpool'; lia);
         try (destruct Hplots as (x & Hx & He);
              apply list_elem_of_singleton in Hx as ->; congruence));
    try congruence;
    (split; [congruence|]);
    (split; intros Hpl; try congruence).
  - apply Permutation_singleton_r in Hperm' as ->.
    unfold plotdir. cbn [fmap list_fmap]. trace_mem.
  - trace_forall.
Qed.

(** X9, witness: the grouped sample run. *)
Lemma grouped_run_returns_the_join_witness :
  group Sample.args_grouped = true
  /\ test_damage Sample.env None (bam Sample.args_grouped) "rb"
       (wlen Sample.args_grouped) (show_al Sample.args_grouped)
       (process Sample.args_grouped) (verbose Sample.args_grouped)
     = inr Sample.fitAll
  /\ (pydamage_analyze Sample.env Sample.fifo Sample.args_grouped).2
     = Return (merge Cases.grouped_predictor_frame Cases.grouped_fitter_frame).
Proof.
  split; [reflexivity|]. split; [reflexivity|].
  refine (proj1 (grouped_run_returns_the_join Sample.env Sample.fifo
                   Sample.args_grouped Sample.refs "rb" Sample.fitAll
                   Cases.grouped_fitter_frame Cases.grouped_fitter_frame
                   Cases.grouped_predictor_frame
                   eq_refl eq_refl eq_refl eq_refl _ eq_refl eq_refl eq_refl
                   eq_refl)).
  intros _. split; [reflexivity|]. split; [discriminate|reflexivity].
Defined.

(** ** X10: a failing set-up *)

(** X10: when the output directory cannot be made, or the alignment file
    cannot be prepared, the run raises that exception and nothing else
    happens: no Fitter invocation, no pool, nothing downstream; and when
    it is the directory that fails the alignment file is not touched. *)
Theorem setup_failure_stops_the_run c s a e :
  makedir c (outdir a) None (Some (force a)) = inl e
  \/ (makedir c (outdir a) None (Some (force a)) = inr tt
      /\ prepare_bam c (bam a) = inl e) ->
  (pydamage_analyze c s a).2 = Raise e
  /\ Forall (fun ev =>
               is_fit ev = false /\ is_pool ev = false
               /\ is_downstream ev = false) (pydamage_analyze c s a).1
  /\ (makedir c (outdir a) None (Some (force a)) = inl e ->
      Forall (fun ev => is_prepare_bam ev = false) (pydamage_analyze c s a).1).
Proof.
  intros [Hm|[Hm Hb]]; rewrite run_eq, setup_eq, Hm, ?Hb; cbn [fst snd abort];
    (split; [done|]); (split; [trace_forall|]); intros ?; try congruence;
    trace_forall.
Qed.

(** X10, witness: the output directory exists already. *)
Lemma setup_failure_stops_the_run_witness :
  (makedir Cases.env_no_outdir (outdir Sample.args) None
     (Some (force Sample.args)) = inl (Raised "FileExistsError")
   \/ (makedir Cases.env_no_outdir (outdir Sample.args) None
         (Some (force Sample.args)) = inr tt
       /\ prepare_bam Cases.env_no_outdir (bam Sample.args)
          = inl (Raised "FileExistsError")))
  /\ (pydamage_analyze Cases.env_no_outdir Sample.fifo Sample.args).2
     = Raise (Raised "FileExistsError").
Proof.
  assert (H : makedir Cases.env_no_outdir (outdir Sample.args) None
                (Some (force Sample.args)) = inl (Raised "FileExistsError")
              \/ (makedir Cases.env_no_outdir (outdir Sample.args) None
                    (Some (force Sample.args)) = inr tt
                  /\ prepare_bam Cases.env_no_outdir (bam Sample.args)
                     = inl (Raised "FileExistsError")))
    by (left; reflexivity).
  split; [exact H|].
  exact (proj1 (setup_failure_stops_the_run Cases.env_no_outdir Sample.fifo
                  Sample.args _ H)).
Defined.

(** ** X11: a failing plot *)

(** X11: a plot that raises is fatal: the run raises and no table is
    built, prepared, joined or written. *)
Theorem plot_failure_aborts c s a pv o w e :
  EDamageplot pv o w ∈ (pydamage_analyze c s a).1 ->
  damageplot c pv o w = inl e ->
  (exists e', (pydamage_analyze c s a).2 = Raise e')
  /\ Forall (fun ev => is_table ev = false) (pydamage_analyze c s a).1.
Proof.
  all_cases c s a; intros H Hd; trace_inv H; simplify_eq;
    try (match goal with
         | Hp : ?l ≡ₚ _, Hx : ?x ∈ ?l |- _ =>
             rewrite Hp in Hx;
             destruct (Forall2_returns _ _ _ x Hplots Hx) as [? ?];
             unfold plotdir in *; congruence
         end);
    (split; [by eexists|]); trace_forall.
Qed.

(** X11, witness: the plot of contigC raises. *)
Lemma plot_failure_aborts_witness :
  EDamageplot Sample.fitC "out/plots" 30
    ∈ (pydamage_analyze Cases.env_plot_fails Sample.shuffled
         Sample.args_plots).1
  /\ damageplot Cases.env_plot_fails Sample.fitC "out/plots" 30
     = inl (Raised "RuntimeError")
  /\ Forall (fun ev => is_table ev = false)
       (pydamage_analyze Cases.env_plot_fails Sample.shuffled
          Sample.args_plots).1.
Proof.
  assert (H : EDamageplot Sample.fitC "out/plots" 30
                ∈ (pydamage_analyze Cases.env_plot_fails Sample.shuffled
                     Sample.args_plots).1)
    by trace_elem_compute.
  split; [exact H|]. split; [reflexivity|].
  exact (proj2 (plot_failure_aborts Cases.env_plot_fails Sample.shuffled
                  Sample.args_plots _ _ _ _ H eq_refl)).
Defined.

(** ** X12: what a failing fit leaves of the fan-out *)

Lemma consumed_first_failure {A B} (g : A -> exn + B) l1 x l2 e :
  Forall (fun y => exists v, g y = inr v) l1 -> g x = inl e ->
  consumed ((fun y => match g y with inl e => Raise e | inr v => Return v end)
              <$> (l1 ++ x :: l2)) = S (length l1).
Proof.
  intros Hl Hx. induction Hl as [|y l1 [v Hy] _ IH]; simpl.
  - by rewrite Hx.
  - rewrite Hy. fold (@fmap list _ A). by rewrite IH.
Qed.

(** X12: in per-reference mode, when the Fitter raises for a reference and
    returned for every reference before it, the run ends with the exit of
    the pool; the Fitter has been invoked for every reference up to the
    failing one, and for no reference more often than the file lists it.
    Whether a reference after the failing one is fitted at all is up to
    the workers. *)
Theorem failing_fit_stops_the_fan_out c s a mode l1 r l2 e :
  group a = false ->
  makedir c (outdir a) None (Some (force a)) = inr tt ->
  prepare_bam c (bam a) = inr (l1 ++ r :: l2, mode) ->
  1 <= process a ->
  Forall (fun r' => exists v,
            test_damage c (Some r') (bam a) mode (wlen a) (show_al a)
              (process a) (verbose a) = inr v) l1 ->
  test_damage c (Some r) (bam a) mode (wlen a) (show_al a) (process a)
    (verbose a) = inl e ->
  exists done_,
    (pydamage_analyze c s a).1
    = banner c a
      ++ [EMakedir (outdir a) None (Some (force a));
          EPrepareBam (bam a);
          EPrint "Estimating and testing Damage";
          EPoolEnter (Z.min (Z.of_nat (length (l1 ++ r :: l2))) (process a));
          ETqdm (length (l1 ++ r :: l2))]
      ++ ((fun r' => fit_call a mode (Some r')) <$> done_)
      ++ [EPoolExit]
    /\ l1 ++ [r] ⊆+ done_
    /\ done_ ⊆+ l1 ++ r :: l2.
Proof.
  intros Hg Hm Hb Hp Hl Hr.
  pose proof (gather_first_failure
                (fun x => test_damage c (Some x) (bam a) mode (wlen a)
                            (show_al a) (process a) (verbose a))
                l1 r l2 e Hl Hr) as Hfirst.
  pose proof (consumed_first_failure
                (fun x => test_damage c (Some x) (bam a) mode (wlen a)
                            (show_al a) (process a) (verbose a))
                l1 r l2 e Hl Hr) as Hcons.
  rewrite run_eq, setup_eq, Hm, Hb. cbn [fst snd].
  destruct (estimate_per_reference c s a (l1 ++ r :: l2, mode) Hg)
    as (refs' & Hsub & Hneed & ->).
  assert (Hn : (pool_size a (l1 ++ r :: l2, mode).1 <? 1) = false).
  { apply Z.ltb_ge. unfold pool_size. cbn [fst]. rewrite length_app.
    simpl. lia. }
  rewrite Hn. cbn [fst snd].
  change (gather _) with
    (gather (fit_outcomes c a (l1 ++ r :: l2, mode))) in Hfirst.
  change (consumed _) with
    (consumed (fit_outcomes c a (l1 ++ r :: l2, mode))) in Hcons.
  rewrite Hfirst. cbn [fst snd abort]. rewrite Hcons in Hneed.
  cbn [fst] in Hneed, Hsub.
  replace (take (S (length l1)) (l1 ++ r :: l2)) with (l1 ++ [r]) in Hneed.
  2:{ rewrite take_app_ge by lia.
      replace (S (length l1) - length l1)%nat with 1%nat by lia.
      reflexivity. }
  exists refs'. split; [|done].
  unfold pool_size. cbn [fst snd]. trace_norm. reflexivity.
Qed.

(** X12, witness: the Fitter raises on contigB; with workers that finish
    in the order of the file and stop at once contigC is not fitted, with
    others it is. *)
Lemma failing_fit_stops_the_fan_out_witness :
  group Sample.args = false
  /\ prepare_bam Cases.env_fit_fails (bam Sample.args)
     = inr (["contigA"] ++ "contigB" :: ["contigC"], "rb")
  /\ 1 <= process Sample.args
  /\ (exists done_,
        (pydamage_analyze Cases.env_fit_fails Sample.fifo Sample.args).1
        = [EMakedir EmptyString None (Some false);
           EPrepareBam "sample.bam";
           EPrint "Estimating and testing Damage";
           EPoolEnter 1; ETqdm 3]
          ++ ((fun r' => fit_call Sample.args "rb" (Some r')) <$> done_)
          ++ [EPoolExit]
        /\ ["contigA"] ++ ["contigB"] ⊆+ done_
        /\ done_ ⊆+ ["contigA"] ++ "contigB" :: ["contigC"])
  /\ List.filter is_fit
       (pydamage_analyze Cases.env_fit_fails Sample.fifo Sample.args).1
     = [fit_call Sample.args "rb" (Some "contigA");
        fit_call Sample.args "rb" (Some "contigB")]
  /\ List.filter is_fit
       (pydamage_analyze Cases.env_fit_fails Sample.shuffled Sample.args).1
     = [fit_call Sample.args "rb" (Some "contigC");
        fit_call Sample.args "rb" (Some "contigA");
        fit_call Sample.args "rb" (Some "contigB")].
Proof.
  split; [reflexivity|]. split; [reflexivity|]. split; [discriminate|].
  split; [|split; vm_compute; reflexivity].
  refine (failing_fit_stops_the_fan_out Cases.env_fit_fails Sample.fifo
            Sample.args "rb" ["contigA"] "contigB" ["contigC"]
            (Raised "KeyError") eq_refl eq_refl eq_refl _ _ eq_refl).
  - discriminate.
  - constructor; [|constructor]. exists Sample.fitA. reflexivity.
Defined.
